(** * Print-mode progress renderer: ANSI-aware text utilities and the
      status display state machine

    Shallow embedding of [print-mode-progress.ts] (the progress renderer used
    by the coding agent's print mode).

    JavaScript strings are sequences of UTF-16 code units: a string is a
    [list Z] of code units, [.length] is the length of that list, a regular
    expression without the [u] flag works on code units, and [for ... of]
    over a string iterates code points (a high surrogate followed by a low
    surrogate is one element). *)

From Stdlib Require Import String Ascii.
From Stdlib Require Import List ZArith QArith Qround DecimalString Lia Bool.
From Equations.Prop Require Import Equations Logic.
Import ListNotations.

Local Open Scope Z_scope.

(** ** JavaScript strings *)

Definition jsstring := list Z.

(** An ASCII literal as code units. *)
Definition js (s : string) : jsstring :=
  map (fun a => Z.of_N (N_of_ascii a)) (list_ascii_of_string s).

(** [.length], of a string or of an array. *)
Definition len {A : Type} (s : list A) : Z := Z.of_nat (length s).

(** [String.prototype.slice(start, end)]: negative positions count from the
    end, both positions are clamped to the string. *)
Definition slice (s : jsstring) (start stop : Z) : jsstring :=
  let from := if start <? 0 then Z.max (len s + start) 0 else Z.min start (len s) in
  let to := if stop <? 0 then Z.max (len s + stop) 0 else Z.min stop (len s) in
  firstn (Z.to_nat (to - from)) (skipn (Z.to_nat from) s).

(** [String.prototype.slice(start)]. *)
Definition slice_from (s : jsstring) (start : Z) : jsstring :=
  slice s start (len s).

Definition is_high_surrogate (c : Z) : bool := (55296 <=? c) && (c <=? 56319).
Definition is_low_surrogate (c : Z) : bool := (56320 <=? c) && (c <=? 57343).

(** The elements [for (const char of s)] yields: code points, each as the
    one or two code units it is made of. *)
Fixpoint codePoints (s : jsstring) : list jsstring :=
  match s with
  | [] => []
  | c :: t =>
      match t with
      | d :: t' =>
          if is_high_surrogate c && is_low_surrogate d
          then [c; d] :: codePoints t'
          else [c] :: codePoints t
      | [] => [[c]]
      end
  end.

(** ** AnsiText *)

Module AnsiText.

Definition ESC : Z := 27.
Definition LBRACKET : Z := 91.
Definition LOWER_M : Z := 109.

(** The character class [[0-9;]]. *)
Definition is_param (c : Z) : bool := ((48 <=? c) && (c <=? 57)) || (c =? 59).

(** The greedy [[0-9;]*]: the parameters read and what follows them. *)
Fixpoint ansi_params (s : jsstring) : jsstring * jsstring :=
  match s with
  | c :: t =>
      if is_param c
      then let (p, r) := ansi_params t in (c :: p, r)
      else ([], s)
  | [] => ([], [])
  end.

(** [/\x1b\[[0-9;]*m/] anchored at the start of [s]: the matched text and
    the rest.  No parameter character is an [m], so the greedy star never
    has to give anything back. *)
Definition match_ansi (s : jsstring) : option (jsstring * jsstring) :=
  match s with
  | c0 :: c1 :: t =>
      if (c0 =? ESC) && (c1 =? LBRACKET) then
        let (p, r) := ansi_params t in
        match r with
        | c2 :: r' =>
            if c2 =? LOWER_M then Some (c0 :: c1 :: p ++ [c2], r') else None
        | [] => None
        end
      else None
  | _ => None
  end.

(** One [exec] of the global regular expression: the leftmost match in [s],
    as (text before it, matched text, text after it). *)
Fixpoint regex_exec (s : jsstring) : option (jsstring * jsstring * jsstring) :=
  match s with
  | [] => None
  | c :: t =>
      match match_ansi s with
      | Some (m, r) => Some ([], m, r)
      | None =>
          match regex_exec t with
          | Some (b, m, r) => Some (c :: b, m, r)
          | None => None
          end
      end
  end.

Lemma ansi_params_app (s : jsstring) :
  s = fst (ansi_params s) ++ snd (ansi_params s).
Proof.
  induction s as [|c t IH]; simpl; [reflexivity|].
  destruct (is_param c); [|reflexivity].
  destruct (ansi_params t) as [p r]; simpl in *. now rewrite <- IH.
Qed.

Lemma match_ansi_app (s m r : jsstring) :
  match_ansi s = Some (m, r) -> s = m ++ r /\ (3 <= length m)%nat.
Proof.
  unfold match_ansi. destruct s as [|c0 [|c1 t]]; try discriminate.
  destruct ((c0 =? ESC) && (c1 =? LBRACKET)); try discriminate.
  pose proof (ansi_params_app t) as Ht.
  destruct (ansi_params t) as [p q]; simpl in Ht.
  destruct q as [|c2 q']; try discriminate.
  destruct (c2 =? LOWER_M); try discriminate.
  intros [= <- <-]. split.
  - simpl. rewrite <- app_assoc. simpl. now rewrite <- Ht.
  - simpl. rewrite length_app. simpl. lia.
Qed.

Lemma regex_exec_app (s b m r : jsstring) :
  regex_exec s = Some (b, m, r) -> s = b ++ m ++ r /\ (3 <= length m)%nat.
Proof.
  revert b. induction s as [|c t IH]; intros b; [discriminate|].
  cbn [regex_exec]. destruct (match_ansi (c :: t)) as [[m' r']|] eqn:Hm.
  - intros [= <- <- <-]. now apply match_ansi_app in Hm.
  - destruct (regex_exec t) as [[[b' m'] r']|]; [|discriminate].
    intros [= <- <- <-]. destruct (IH b' eq_refl) as [-> Hlen].
    split; [reflexivity|assumption].
Qed.

Lemma regex_exec_shorter (s b m r : jsstring) :
  regex_exec s = Some (b, m, r) -> (length r < length s)%nat.
Proof.
  intros H. apply regex_exec_app in H as [-> Hm].
  rewrite !length_app. lia.
Qed.

(** [str.replace(/\x1b\[[0-9;]*m/g, "")]: every match found by successive
    [exec]s, each resuming after the previous match, is dropped. *)
Equations stripAnsi (str : jsstring) : jsstring by wf (length str) lt :=
  stripAnsi str with inspect (regex_exec str) := {
    | exist _ (Some (b, _, r)) Heq => b ++ stripAnsi r
    | exist _ None _ => str }.
Next Obligation.
  eapply regex_exec_shorter; eassumption.
Qed.

Definition visibleWidth (str : jsstring) : Z := len (stripAnsi str).

(** [text.matchAll(ansiRegex)]: every match with its [index], found by the
    same succession of [exec]s; [offset] is the position of [text] in the
    whole string. *)
Equations matchAll_from (offset : Z) (text : jsstring) : list (Z * jsstring)
  by wf (length text) lt :=
  matchAll_from offset text with inspect (regex_exec text) := {
    | exist _ (Some (b, m, r)) Heq =>
        (offset + len b, m) :: matchAll_from (offset + len b + len m) r
    | exist _ None _ => [] }.
Next Obligation.
  eapply regex_exec_shorter; eassumption.
Qed.

Definition matchAll (text : jsstring) : list (Z * jsstring) :=
  matchAll_from 0 text.

(** The style reset [\x1b[0m] and the default ellipsis. *)
Definition RESET : jsstring := [ESC; LBRACKET; 48; LOWER_M].
Definition ELLIPSIS : jsstring := Eval cbv in js "...".

(** The inner loop of [truncateToWidth]:
    [for (const char of chars) { if (visibleCount >= targetWidth) break;
    result += char; visibleCount++; }]. *)
Fixpoint copy_visible (targetWidth : Z) (chars : list jsstring)
    (visibleCount : Z) (result : jsstring) : Z * jsstring :=
  match chars with
  | [] => (visibleCount, result)
  | char :: more =>
      if visibleCount >=? targetWidth then (visibleCount, result)
      else copy_visible targetWidth more (visibleCount + 1) (result ++ char)
  end.

(** The loop over the matches, on the loop state
    [(visibleCount, result, lastIndex)]. *)
Fixpoint walk_matches (text : jsstring) (targetWidth : Z)
    (matches : list (Z * jsstring))
    (visibleCount : Z) (result : jsstring) (lastIndex : Z)
    : Z * jsstring * Z :=
  match matches with
  | [] => (visibleCount, result, lastIndex)
  | (index, m) :: more =>
      let beforeAnsi := slice text lastIndex index in
      let (visibleCount', result') :=
        copy_visible targetWidth (codePoints beforeAnsi) visibleCount result in
      if visibleCount' >=? targetWidth then (visibleCount', result', lastIndex)
      else walk_matches text targetWidth more visibleCount' (result' ++ m)
             (index + len m)
  end.

(** The statements after the loop over the matches:
    [if (visibleCount < targetWidth) { const remaining = text.slice(lastIndex);
    for (const char of remaining) { ... } }], on the state the loop ended
    in. *)
Definition finish (text : jsstring) (targetWidth : Z)
    (loop : Z * jsstring * Z) : jsstring :=
  let '(visibleCount, result, lastIndex) := loop in
  if visibleCount <? targetWidth
  then snd (copy_visible targetWidth (codePoints (slice_from text lastIndex))
              visibleCount result)
  else result.

Definition truncateToWidth (text : jsstring) (maxWidth : Z)
    (ellipsis : jsstring) : jsstring :=
  let textWidth := visibleWidth text in
  if textWidth <=? maxWidth then text
  else
    let ellipsisWidth := len ellipsis in
    let targetWidth := maxWidth - ellipsisWidth in
    if targetWidth <=? 0 then slice ellipsis 0 maxWidth
    else
      let result :=
        finish text targetWidth
          (walk_matches text targetWidth (matchAll text) 0 [] 0) in
      result ++ RESET ++ ellipsis.

(** *** The truncation as the specification words it

    A walk over the string, left to right, over two kinds of token: a
    style-escape sequence is copied through and costs nothing, a plain
    character is copied and costs one unit of the budget; the walk ends as
    soon as the budget is used up. *)
Equations spec_walk (budget : nat) (s : jsstring) : jsstring
  by wf (length s) lt :=
  spec_walk 0 _ := [];
  spec_walk (S n) [] := [];
  spec_walk (S n) (c :: t) with inspect (match_ansi (c :: t)) := {
    | exist _ (Some (m, r)) Heq => m ++ spec_walk (S n) r
    | exist _ None _ => c :: spec_walk n t }.
Next Obligation.
  change (match_ansi (c :: t) = Some (m, r)) in Heq.
  apply match_ansi_app in Heq as [E Hm].
  apply (f_equal (@length Z)) in E. rewrite length_app in E. simpl in E. lia.
Qed.

(** [spec_truncateToWidth]: follows the prose of the specification, not the
    source.  Unchanged when the text fits; the ellipsis cut to [maxWidth]
    visible characters when [maxWidth] is smaller than the ellipsis width;
    otherwise the walk with budget [maxWidth - visibleWidth(ellipsis)],
    then the style reset and the ellipsis. *)
Definition spec_truncateToWidth (s : jsstring) (maxWidth : Z)
    (ellipsis : jsstring) : jsstring :=
  if visibleWidth s <=? maxWidth then s
  else if maxWidth <? visibleWidth ellipsis
  then spec_walk (Z.to_nat maxWidth) ellipsis
  else spec_walk (Z.to_nat (maxWidth - visibleWidth ellipsis)) s
         ++ RESET ++ ellipsis.

(** No surrogate pair: [for ... of] then yields the code units one by one. *)
Fixpoint no_surrogate_pair (s : jsstring) : bool :=
  match s with
  | [] => true
  | c :: t =>
      match t with
      | d :: _ => negb (is_high_surrogate c && is_low_surrogate d)
      | [] => true
      end && no_surrogate_pair t
  end.

End AnsiText.

(** ** What the renderer takes from its host

    The theme module, the number formatting of the JavaScript runtime and
    the values of tool arguments are not part of the renderer: they are the
    interface it is written against. *)

Inductive ThemeColor := accent | warning | error | dim.

Class Host := {
  (** IEEE-754 numbers, for the quantities that need not be integers. *)
  number : Type;
  number_of_Z : Z -> number;
  number_add : number -> number -> number;
  number_mul : number -> number -> number;
  number_div : number -> number -> number;
  number_gtb : number -> number -> bool;
  (** [Math.round], [Number.prototype.toString], [Number.prototype.toFixed]. *)
  Math_round : number -> number;
  number_toString : number -> jsstring;
  number_toFixed : number -> Z -> jsstring;
  (** [theme.fg(color, text)]. *)
  theme_fg : ThemeColor -> jsstring -> jsstring;
  (** Values of type [unknown]: truthiness, [String(v)], and
      [JSON.stringify] of an arguments object. *)
  value : Type;
  truthy : value -> bool;
  value_String : value -> jsstring;
  JSON_stringify : list (jsstring * value) -> jsstring
}.

(** ** The progress renderer *)

Module PrintModeProgress.

Import AnsiText.

Fixpoint jseq (a b : jsstring) : bool :=
  match a, b with
  | [], [] => true
  | x :: a', y :: b' => (x =? y) && jseq a' b'
  | _, _ => false
  end.

(** [s.startsWith(p)]. *)
Fixpoint startsWith (s p : jsstring) : bool :=
  match p, s with
  | [], _ => true
  | y :: p', x :: s' => (x =? y) && startsWith s' p'
  | _ :: _, [] => false
  end.

(** White space and line terminators, as [String.prototype.trim] sees them. *)
Definition is_js_whitespace (c : Z) : bool :=
  (c =? 9) || (c =? 10) || (c =? 11) || (c =? 12) || (c =? 13) || (c =? 32)
  || (c =? 160) || (c =? 5760) || ((8192 <=? c) && (c <=? 8202))
  || (c =? 8232) || (c =? 8233) || (c =? 8239) || (c =? 8287)
  || (c =? 12288) || (c =? 65279).

Fixpoint trimStart (s : jsstring) : jsstring :=
  match s with
  | c :: t => if is_js_whitespace c then trimStart t else s
  | [] => []
  end.

Definition trim (s : jsstring) : jsstring :=
  rev (trimStart (rev (trimStart s))).

Definition SPACE : Z := 32.

(** [/ +/g] replaced by one space: a space followed by a space is dropped. *)
Fixpoint collapse_spaces (s : jsstring) : jsstring :=
  match s with
  | [] => []
  | c :: t =>
      match t with
      | d :: _ =>
          if (c =? SPACE) && (d =? SPACE) then collapse_spaces t
          else c :: collapse_spaces t
      | [] => [c]
      end
  end.

Definition normalizeText (text : jsstring) : jsstring :=
  trim (collapse_spaces
          (map (fun c => if (c =? 13) || (c =? 10) || (c =? 9) then SPACE else c)
               text)).

(** Two spaces in a row, somewhere in [s]. *)
Fixpoint double_space (s : jsstring) : bool :=
  match s with
  | [] => false
  | c :: t =>
      match t with
      | d :: _ => (c =? SPACE) && (d =? SPACE)
      | [] => false
      end || double_space t
  end.

(** The tool names [formatToolCall] has a case for. *)
Definition known_tools : list jsstring :=
  [js "read"; js "write"; js "edit"; js "bash"; js "grep"; js "find"; js "ls"].

Definition SPINNER_FRAMES : list jsstring :=
  [[10251]; [10265]; [10297]; [10296]; [10300];
   [10292]; [10278]; [10279]; [10247]; [10255]].
Definition SPINNER_INTERVAL_MS : Z := 80.

Definition UP_ARROW : jsstring := [8593].
Definition DOWN_ARROW : jsstring := [8595].
Definition placeholder : jsstring := Eval cbv in js "---".

Record CumulativeUsage {host : Host} := {
  input : Z;
  output : Z;
  cacheRead : Z;
  cacheWrite : Z;
  cost : number
}.

Record ContextUsage := {
  tokens : Z;
  window : Z
}.

Record Model := {
  id : jsstring;
  reasoning : bool;
  contextWindow : Z
}.

Inductive ActivityType := tool | thinking | text | system.

(** The activity state: the variant and what it shows. *)
Inductive ActivityState :=
| Tool (name detail : jsstring)
| Thinking (detail : jsstring)
| Text (detail : jsstring)
| System (status : jsstring).


Section Renderer.

Context {host : Host}.

(** The content blocks of an assistant message. *)
Inductive Content :=
| ToolCall (name : jsstring) (arguments : list (jsstring * value))
| ThinkingContent (thinking : option jsstring)
| TextContent (text : jsstring).

Record Message := {
  role : jsstring;
  content : list Content;
  usage : CumulativeUsage
}.

Inductive AgentSessionEvent :=
| message_start (message : Message)
| message_update (message : Message)
| message_end (message : Message)
| auto_compaction_start
| auto_retry_start (attempt maxAttempts : Z)
| other_event (type : jsstring).

(** What a call reads from the process: the clock, the width of the
    terminal on stderr, the home directory variables. *)
Record Env := {
  now : Z;
  columns : option Z;
  HOME : option jsstring;
  USERPROFILE : option jsstring
}.

(** The fields of the class.  [usageTotals] is the field [usage]: that name
    is the message's here. *)
Record State := {
  spinnerFrame : Z;
  spinnerInterval : option Z;
  startTime : Z;
  currentActivity : jsstring;
  currentActivityType : ActivityType;
  currentToolName : jsstring;
  usageTotals : CumulativeUsage;
  context : ContextUsage;
  hasReceivedStats : bool;
  model : option Model;
  thinkingLevel : jsstring;
  isActive : bool;
  hasRenderedOnce : bool
}.

(** What a call writes to stderr, one element per [write]. *)
Definition Output := list jsstring.

Definition ASSISTANT : jsstring := Eval cbv in js "assistant".
Definition OFF : jsstring := Eval cbv in js "off".

(** The field initialisers and the constructor. *)
Definition new (t : Z) : State :=
  {| spinnerFrame := 0;
     spinnerInterval := None;
     startTime := t;
     currentActivity := [];
     currentActivityType := system;
     currentToolName := [];
     usageTotals := {| input := 0; output := 0; cacheRead := 0; cacheWrite := 0;
                       cost := number_of_Z 0 |};
     context := {| tokens := 0; window := 0 |};
     hasReceivedStats := false;
     model := None;
     thinkingLevel := OFF;
     isActive := false;
     hasRenderedOnce := false |}.

Definition set_activity (a : jsstring) (ty : ActivityType) (st : State) : State :=
  {| spinnerFrame := spinnerFrame st;
     spinnerInterval := spinnerInterval st;
     startTime := startTime st;
     currentActivity := a;
     currentActivityType := ty;
     currentToolName := currentToolName st;
     usageTotals := usageTotals st;
     context := context st;
     hasReceivedStats := hasReceivedStats st;
     model := model st;
     thinkingLevel := thinkingLevel st;
     isActive := isActive st;
     hasRenderedOnce := hasRenderedOnce st |}.

Definition set_currentToolName (n : jsstring) (st : State) : State :=
  {| spinnerFrame := spinnerFrame st;
     spinnerInterval := spinnerInterval st;
     startTime := startTime st;
     currentActivity := currentActivity st;
     currentActivityType := currentActivityType st;
     currentToolName := n;
     usageTotals := usageTotals st;
     context := context st;
     hasReceivedStats := hasReceivedStats st;
     model := model st;
     thinkingLevel := thinkingLevel st;
     isActive := isActive st;
     hasRenderedOnce := hasRenderedOnce st |}.

Definition set_spinnerFrame (f : Z) (st : State) : State :=
  {| spinnerFrame := f;
     spinnerInterval := spinnerInterval st;
     startTime := startTime st;
     currentActivity := currentActivity st;
     currentActivityType := currentActivityType st;
     currentToolName := currentToolName st;
     usageTotals := usageTotals st;
     context := context st;
     hasReceivedStats := hasReceivedStats st;
     model := model st;
     thinkingLevel := thinkingLevel st;
     isActive := isActive st;
     hasRenderedOnce := hasRenderedOnce st |}.

Definition set_hasRenderedOnce (b : bool) (st : State) : State :=
  {| spinnerFrame := spinnerFrame st;
     spinnerInterval := spinnerInterval st;
     startTime := startTime st;
     currentActivity := currentActivity st;
     currentActivityType := currentActivityType st;
     currentToolName := currentToolName st;
     usageTotals := usageTotals st;
     context := context st;
     hasReceivedStats := hasReceivedStats st;
     model := model st;
     thinkingLevel := thinkingLevel st;
     isActive := isActive st;
     hasRenderedOnce := b |}.

(** The assignments of the [message_end] case. *)
Definition set_stats (u : CumulativeUsage) (c : ContextUsage) (st : State) : State :=
  {| spinnerFrame := spinnerFrame st;
     spinnerInterval := spinnerInterval st;
     startTime := startTime st;
     currentActivity := currentActivity st;
     currentActivityType := currentActivityType st;
     currentToolName := currentToolName st;
     usageTotals := u;
     context := c;
     hasReceivedStats := true;
     model := model st;
     thinkingLevel := thinkingLevel st;
     isActive := isActive st;
     hasRenderedOnce := hasRenderedOnce st |}.

(** [stop]: the display is inactive and the interval is cleared. *)
Definition set_stopped (st : State) : State :=
  {| spinnerFrame := spinnerFrame st;
     spinnerInterval := None;
     startTime := startTime st;
     currentActivity := currentActivity st;
     currentActivityType := currentActivityType st;
     currentToolName := currentToolName st;
     usageTotals := usageTotals st;
     context := context st;
     hasReceivedStats := hasReceivedStats st;
     model := model st;
     thinkingLevel := thinkingLevel st;
     isActive := false;
     hasRenderedOnce := hasRenderedOnce st |}.

(** *** Tool call formatting *)

(** [args.key]: [undefined] when the property is missing. *)
Definition property (args : list (jsstring * value)) (key : jsstring)
    : option value :=
  match find (fun kv => jseq (fst kv) key) args with
  | Some kv => Some (snd kv)
  | None => None
  end.

(** [String(v1 || v2 || ... || fallback)]. *)
Fixpoint String_or (candidates : list (option value)) (fallback : jsstring)
    : jsstring :=
  match candidates with
  | [] => fallback
  | Some v :: more =>
      if truthy v then value_String v else String_or more fallback
  | None :: more => String_or more fallback
  end.

(** [a || b] for an environment variable [a]. *)
Definition env_or (a : option jsstring) (b : jsstring) : jsstring :=
  match a with
  | Some (c :: t) => c :: t
  | _ => b
  end.

Definition shortenPath (env : Env) (path : jsstring) : jsstring :=
  let home := env_or (HOME env) (env_or (USERPROFILE env) []) in
  if (0 <? len home) && startsWith path home
  then js "~" ++ slice_from path (len home)
  else path.

Definition K_path : jsstring := Eval cbv in js "path".
Definition K_file_path : jsstring := Eval cbv in js "file_path".
Definition K_command : jsstring := Eval cbv in js "command".
Definition K_pattern : jsstring := Eval cbv in js "pattern".

Definition formatToolCall (env : Env) (name : jsstring)
    (args : list (jsstring * value)) : jsstring :=
  if jseq name (js "read") || jseq name (js "write") || jseq name (js "edit")
  then shortenPath env
         (String_or [property args K_path; property args K_file_path] [])
  else if jseq name (js "bash")
  then normalizeText (String_or [property args K_command] [])
  else if jseq name (js "grep")
  then
    let pattern := String_or [property args K_pattern] [] in
    let path := shortenPath env (String_or [property args K_path] (js ".")) in
    js "/" ++ pattern ++ js "/ in " ++ path
  else if jseq name (js "find")
  then
    let pattern := String_or [property args K_pattern] [] in
    let path := shortenPath env (String_or [property args K_path] (js ".")) in
    pattern ++ js " in " ++ path
  else if jseq name (js "ls")
  then shortenPath env (String_or [property args K_path] (js "."))
  else
    let argsStr := JSON_stringify args in
    if len argsStr >? 40 then slice argsStr 0 37 ++ js "..." else argsStr.

(** *** Activity from a streaming assistant message *)

Definition is_toolCall (c : Content) : bool :=
  match c with ToolCall _ _ => true | _ => false end.
Definition is_thinking (c : Content) : bool :=
  match c with ThinkingContent _ => true | _ => false end.
Definition is_text (c : Content) : bool :=
  match c with TextContent _ => true | _ => false end.

(** [blocks[blocks.length - 1]]. *)
Definition last_block (blocks : list Content) : option Content :=
  nth_error blocks (length blocks - 1).

Definition updateFromAssistantMessage (env : Env) (msg : Message) (st : State)
    : State :=
  let toolCalls := filter is_toolCall (content msg) in
  match (if 0 <? len toolCalls then last_block toolCalls else None) with
  | Some (ToolCall name args) =>
      set_activity (formatToolCall env name args) tool
        (set_currentToolName name st)
  | _ =>
      let thinkingBlocks := filter is_thinking (content msg) in
      match (if 0 <? len thinkingBlocks then last_block thinkingBlocks else None) with
      | Some (ThinkingContent lastThinking) =>
          match lastThinking with
          | Some t =>
              match trim t with
              | _ :: _ => set_activity (normalizeText t) thinking st
              | [] => set_activity [] thinking st
              end
          | None => set_activity [] thinking st
          end
      | _ =>
          let textBlocks := filter is_text (content msg) in
          match (if 0 <? len textBlocks then last_block textBlocks else None) with
          | Some (TextContent (c :: t)) =>
              set_activity (normalizeText (c :: t)) text st
          | _ => st
          end
      end
  end.

(** *** The two lines *)

Definition formatTokens (count : Z) : jsstring :=
  if count <? 1000 then number_toString (number_of_Z count)
  else if count <? 10000
  then number_toFixed (number_div (number_of_Z count) (number_of_Z 1000)) 1
         ++ js "k"
  else if count <? 1000000
  then number_toString
         (Math_round (number_div (number_of_Z count) (number_of_Z 1000)))
         ++ js "k"
  else if count <? 10000000
  then number_toFixed (number_div (number_of_Z count) (number_of_Z 1000000)) 1
         ++ js "M"
  else number_toString
         (Math_round (number_div (number_of_Z count) (number_of_Z 1000000)))
         ++ js "M".

(** [Math.floor] of a quotient of integers is the floored division of [Z];
    [%] is the remainder with the sign of the dividend. *)
Definition formatElapsedTime (env : Env) (st : State) : jsstring :=
  let elapsed := (now env - startTime st) / 1000 in
  if elapsed <? 60 then number_toString (number_of_Z elapsed) ++ js "s"
  else
    let minutes := elapsed / 60 in
    let seconds := Z.rem elapsed 60 in
    number_toString (number_of_Z minutes) ++ js "m "
      ++ number_toString (number_of_Z seconds) ++ js "s".

Definition buildActivityLine (st : State) : jsstring :=
  let frame := nth (Z.to_nat (spinnerFrame st)) SPINNER_FRAMES (js "undefined") in
  let spinner := theme_fg accent frame in
  match currentActivityType st with
  | tool =>
      spinner ++ js " "
        ++ theme_fg accent (js "[" ++ currentToolName st ++ js "]")
        ++ js " " ++ currentActivity st
  | thinking =>
      match currentActivity st with
      | _ :: _ =>
          spinner ++ js " " ++ theme_fg accent (js "[thinking]")
            ++ js " " ++ currentActivity st
      | [] => spinner ++ js " " ++ theme_fg accent (js "[thinking]")
      end
  | text => spinner ++ js " " ++ currentActivity st
  | system =>
      if startsWith (currentActivity st) (js "Retrying")
      then theme_fg warning frame ++ js " "
             ++ theme_fg warning (currentActivity st)
      else spinner ++ js " " ++ currentActivity st
  end.

(** [parts.join(sep)]. *)
Fixpoint join (sep : jsstring) (parts : list jsstring) : jsstring :=
  match parts with
  | [] => []
  | [p] => p
  | p :: more => p ++ sep ++ join sep more
  end.

(** The token and cost segments of the stats line. *)
Definition usageParts (st : State) : list jsstring :=
  if hasReceivedStats st then
    [UP_ARROW ++ formatTokens (input (usageTotals st));
     DOWN_ARROW ++ formatTokens (output (usageTotals st));
     js "R" ++ formatTokens (cacheRead (usageTotals st));
     js "W" ++ formatTokens (cacheWrite (usageTotals st));
     js "$" ++ number_toFixed (cost (usageTotals st)) 3]
  else
    [UP_ARROW ++ placeholder;
     DOWN_ARROW ++ placeholder;
     js "R" ++ placeholder;
     js "W" ++ placeholder;
     js "$" ++ placeholder].

(** The context percentage segment: present only for a positive window. *)
Definition contextParts (st : State) : list jsstring :=
  if window (context st) >? 0 then
    if hasReceivedStats st then
      let contextPercent :=
        number_mul
          (number_div (number_of_Z (tokens (context st)))
                      (number_of_Z (window (context st))))
          (number_of_Z 100) in
      let contextDisplay :=
        number_toFixed contextPercent 1 ++ js "%/"
          ++ formatTokens (window (context st)) in
      if number_gtb contextPercent (number_of_Z 90)
      then [theme_fg error contextDisplay]
      else if number_gtb contextPercent (number_of_Z 70)
      then [theme_fg warning contextDisplay]
      else [contextDisplay]
    else [placeholder ++ js "/" ++ formatTokens (window (context st))]
  else [].

(** The model segment, with the thinking level of a reasoning model. *)
Definition modelParts (st : State) : list jsstring :=
  match model st with
  | Some m =>
      if reasoning m && negb (jseq (thinkingLevel st) OFF)
      then [id m ++ js ":" ++ thinkingLevel st]
      else [id m]
  | None => []
  end.

(** The array [parts] of [buildStatsLine], in the order of its pushes. *)
Definition statsParts (env : Env) (st : State) : list jsstring :=
  usageParts st ++ contextParts st ++ modelParts st
    ++ [formatElapsedTime env st].

Definition buildStatsLine (env : Env) (st : State) : jsstring :=
  theme_fg dim (join (js " | ") (statsParts env st)).

(** *** Terminal output *)

Definition NL : jsstring := [10].
(** [\x1b[3A\r]: up three lines, to the first column. *)
Definition MOVE_UP : jsstring := [27; 91; 51; 65; 13].
(** [\x1b[K]: clear the current line. *)
Definition CLEAR_LINE : jsstring := [27; 91; 75].

(** The four lines of a frame: empty, activity, stats, empty. *)
Definition frame (displayActivity displayStats : jsstring) : jsstring :=
  CLEAR_LINE ++ NL
    ++ CLEAR_LINE ++ displayActivity ++ NL
    ++ CLEAR_LINE ++ displayStats ++ NL
    ++ CLEAR_LINE.

(** A line as [render] shows it at terminal width [termWidth]. *)
Definition display (termWidth : Z) (line : jsstring) : jsstring :=
  if visibleWidth line >? termWidth
  then truncateToWidth line termWidth ELLIPSIS
  else line.

(** [process.stderr.columns || 80]. *)
Definition termWidth (env : Env) : Z :=
  match columns env with
  | Some c => if c =? 0 then 80 else c
  | None => 80
  end.

Definition render (env : Env) (st : State) : State * Output :=
  if negb (isActive st) then (st, [])
  else
    let activityLine := buildActivityLine st in
    let statsLine := buildStatsLine env st in
    let displayActivity := display (termWidth env) activityLine in
    let displayStats := display (termWidth env) statsLine in
    let moveUp := if hasRenderedOnce st then MOVE_UP else [] in
    (set_hasRenderedOnce true st,
     [moveUp ++ frame displayActivity displayStats]).

Definition clearLines : Output :=
  [MOVE_UP ++ CLEAR_LINE ++ NL ++ CLEAR_LINE ++ NL ++ CLEAR_LINE ++ NL
     ++ CLEAR_LINE ++ MOVE_UP].

(** *** The public methods *)

Definition start (env : Env) (m : option Model) (level : jsstring) (st : State)
    : State * Output :=
  render env
    {| spinnerFrame := spinnerFrame st;
       spinnerInterval := Some SPINNER_INTERVAL_MS;
       startTime := now env;
       currentActivity := js "Starting...";
       currentActivityType := system;
       currentToolName := currentToolName st;
       usageTotals := usageTotals st;
       context := {| tokens := 0;
                     window := match m with
                               | Some md => contextWindow md
                               | None => 0
                               end |};
       hasReceivedStats := false;
       model := m;
       thinkingLevel := level;
       isActive := true;
       hasRenderedOnce := false |}.

Definition stop (st : State) : State * Output :=
  (set_stopped st, clearLines).

(** The callback of the spinner interval. *)
Definition tick (env : Env) (st : State) : State * Output :=
  render env
    (set_spinnerFrame (Z.rem (spinnerFrame st + 1) (len SPINNER_FRAMES)) st).

(** The [message_end] case: totals are added to, the context tokens are
    replaced. *)
Definition addUsage (msg : Message) (st : State) : State :=
  set_stats
    {| input := input (usageTotals st) + input (usage msg);
       output := output (usageTotals st) + output (usage msg);
       cacheRead := cacheRead (usageTotals st) + cacheRead (usage msg);
       cacheWrite := cacheWrite (usageTotals st) + cacheWrite (usage msg);
       cost := number_add (cost (usageTotals st)) (cost (usage msg)) |}
    {| tokens := input (usage msg) + output (usage msg)
                 + cacheRead (usage msg) + cacheWrite (usage msg);
       window := window (context st) |}
    st.

(** The [switch] of [handleEvent]. *)
Definition applyEvent (env : Env) (event : AgentSessionEvent) (st : State)
    : State :=
  match event with
  | message_start msg =>
      if jseq (role msg) ASSISTANT
      then set_activity (js "Working...") system st
      else st
  | message_update msg =>
      if jseq (role msg) ASSISTANT
      then updateFromAssistantMessage env msg st
      else st
  | message_end msg =>
      if jseq (role msg) ASSISTANT then addUsage msg st else st
  | auto_compaction_start =>
      set_activity (js "Compacting context...") system st
  | auto_retry_start attempt maxAttempts =>
      set_activity
        (js "Retrying (" ++ number_toString (number_of_Z attempt) ++ js "/"
           ++ number_toString (number_of_Z maxAttempts) ++ js ")...")
        system st
  | other_event _ => st
  end.

Definition handleEvent (env : Env) (event : AgentSessionEvent) (st : State)
    : State * Output :=
  if negb (isActive st) then (st, [])
  else render env (applyEvent env event st).

(** *** Sessions: the calls a driver makes, in order *)

Inductive Call :=
| call_start (m : option Model) (level : jsstring)
| call_handleEvent (event : AgentSessionEvent)
| call_tick
| call_stop.

Definition step (c : Env * Call) (st : State) : State * Output :=
  match snd c with
  | call_start m level => start (fst c) m level st
  | call_handleEvent event => handleEvent (fst c) event st
  | call_tick => tick (fst c) st
  | call_stop => stop st
  end.

(** The state after the calls and everything written meanwhile. *)
Fixpoint run (calls : list (Env * Call)) (st : State) : State * Output :=
  match calls with
  | [] => (st, [])
  | c :: more =>
      let (st1, out1) := step c st in
      let (st2, out2) := run more st1 in
      (st2, out1 ++ out2)
  end.

(** *** What the properties are stated with *)

Definition activityState (st : State) : ActivityState :=
  match currentActivityType st with
  | tool => Tool (currentToolName st) (currentActivity st)
  | thinking => Thinking (currentActivity st)
  | text => Text (currentActivity st)
  | system => System (currentActivity st)
  end.

(** The frame [render] writes for a state, after any cursor movement. *)
Definition frame_of (env : Env) (st : State) : jsstring :=
  frame (display (termWidth env) (buildActivityLine st))
        (display (termWidth env) (buildStatsLine env st)).

(** The calls that update a running display: events and clock ticks. *)
Definition is_update (c : Env * Call) : bool :=
  match snd c with
  | call_handleEvent _ | call_tick => true
  | call_start _ _ | call_stop => false
  end.

(** An event [handleEvent] has no case for, or a message of another role. *)
Definition ignored (event : AgentSessionEvent) : bool :=
  match event with
  | message_start msg | message_update msg | message_end msg =>
      negb (jseq (role msg) ASSISTANT)
  | other_event _ => true
  | auto_compaction_start | auto_retry_start _ _ => false
  end.

(** An assistant [message_end]. *)
Definition completes (c : Env * Call) : bool :=
  match snd c with
  | call_handleEvent (message_end msg) => jseq (role msg) ASSISTANT
  | _ => false
  end.

(** The fields no event writes. *)
Definition same_session (st st' : State) : Prop :=
  isActive st' = isActive st
  /\ hasRenderedOnce st' = hasRenderedOnce st
  /\ spinnerInterval st' = spinnerInterval st
  /\ startTime st' = startTime st
  /\ model st' = model st
  /\ thinkingLevel st' = thinkingLevel st
  /\ window (context st') = window (context st).

(** The fields only an assistant [message_end] writes. *)
Definition same_stats (st st' : State) : Prop :=
  usageTotals st' = usageTotals st
  /\ tokens (context st') = tokens (context st)
  /\ hasReceivedStats st' = hasReceivedStats st.



(** The usage a call delivers: that of an assistant [message_end]. *)
Definition completed (c : Env * Call) : option CumulativeUsage :=
  match snd c with
  | call_handleEvent (message_end msg) =>
      if jseq (role msg) ASSISTANT then Some (usage msg) else None
  | _ => None
  end.


(** The normalized text of a reasoning block; nothing when it has none. *)
Definition thinking_text (t : option jsstring) : jsstring :=
  match t with
  | Some t => normalizeText t
  | None => []
  end.

(** [spec_activity]: the activity a snapshot leads to as the specification
    words it, not the source.  The last tool call if there is one, else the
    last reasoning block if there is one, else the last text block if there
    is one, else the activity before. *)
Definition spec_activity (env : Env) (blocks : list Content)
    (prior : ActivityState) : ActivityState :=
  match rev (filter is_toolCall blocks) with
  | ToolCall name args :: _ => Tool name (formatToolCall env name args)
  | _ =>
      match rev (filter is_thinking blocks) with
      | ThinkingContent t :: _ => Thinking (thinking_text t)
      | _ =>
          match rev (filter is_text blocks) with
          | TextContent t :: _ => Text (normalizeText t)
          | _ => prior
          end
      end
  end.

(** The same, but a last text block that is empty leaves the activity as it
    was. *)
Definition amended_activity (env : Env) (blocks : list Content)
    (prior : ActivityState) : ActivityState :=
  match rev (filter is_toolCall blocks) with
  | ToolCall name args :: _ => Tool name (formatToolCall env name args)
  | _ =>
      match rev (filter is_thinking blocks) with
      | ThinkingContent t :: _ => Thinking (thinking_text t)
      | _ =>
          match rev (filter is_text blocks) with
          | TextContent (c :: t) :: _ => Text (normalizeText (c :: t))
          | _ => prior
          end
      end
  end.

(** The frame index is in range and the handle of an interval is held
    exactly while the display is active. *)
Definition steady (st : State) : Prop :=
  0 <= spinnerFrame st < len SPINNER_FRAMES
  /\ spinnerInterval st
     = if isActive st then Some SPINNER_INTERVAL_MS else None.

(** No token total of [u] is above that of [v]. *)
Definition usage_le (u v : CumulativeUsage) : Prop :=
  input u <= input v /\ output u <= output v
  /\ cacheRead u <= cacheRead v /\ cacheWrite u <= cacheWrite v.

(** A call that delivers no negative token count. *)
Definition nonneg_call (c : Env * Call) : bool :=
  match completed c with
  | Some u =>
      (0 <=? input u) && (0 <=? output u)
      && (0 <=? cacheRead u) && (0 <=? cacheWrite u)
  | None => true
  end.

(** [t] occurs in [s]. *)
Definition substring (t s : jsstring) : Prop :=
  exists l r, s = l ++ t ++ r.

(** The line feeds of a write: a write of [n] line feeds covers [n + 1]
    terminal lines and leaves the cursor [n] lines below where it began. *)
Definition line_feeds (s : jsstring) : nat := count_occ Z.eq_dec s 10.

(** The fields the stats line is built from. *)
Definition same_stats_line (st st' : State) : Prop :=
  usageTotals st' = usageTotals st
  /\ tokens (context st') = tokens (context st)
  /\ window (context st') = window (context st)
  /\ hasReceivedStats st' = hasReceivedStats st
  /\ model st' = model st
  /\ thinkingLevel st' = thinkingLevel st
  /\ startTime st' = startTime st.

(** The context segment of a stats line without statistics, separator
    included: present for a positive window only. *)
Definition placeholderContextText (m : option Model) : jsstring :=
  match m with
  | Some md =>
      if contextWindow md >? 0
      then js " | ---/" ++ formatTokens (contextWindow md)
      else []
  | None => []
  end.

(** The model segment of a stats line, separator included. *)
Definition modelText (m : option Model) (level : jsstring) : jsstring :=
  match m with
  | Some md =>
      js " | " ++ id md
        ++ (if reasoning md && negb (jseq level OFF)
            then js ":" ++ level else [])
  | None => []
  end.

(** The text of a stats line without statistics, character by character:
    what the properties compare the joined segments with. *)
Definition placeholderStatsText (m : option Model) (level elapsed : jsstring)
    : jsstring :=
  [8593] ++ js "--- | " ++ [8595] ++ js "--- | R--- | W--- | $---"
    ++ placeholderContextText m ++ modelText m level
    ++ js " | " ++ elapsed.

(** *** The intervals registered with the runtime

    [setInterval] registers an interval with the runtime and
    [clearInterval] removes the one whose handle it is given.  [start]
    stores the handle of the interval it registers over the handle the
    instance holds, without clearing that one; [stop] clears the handle the
    instance holds, if it holds one.  [registered calls st n] is the number
    of intervals registered after the calls, [n] of them being registered
    before. *)
Definition step_registered (c : Env * Call) (st : State) (n : nat) : nat :=
  match snd c with
  | call_start _ _ => S n
  | call_stop =>
      match spinnerInterval st with
      | Some _ => pred n
      | None => n
      end
  | call_handleEvent _ | call_tick => n
  end.

Fixpoint registered (calls : list (Env * Call)) (st : State) (n : nat) : nat :=
  match calls with
  | [] => n
  | c :: more => registered more (fst (step c st)) (step_registered c st n)
  end.

(** The calls of [start] made while the display was running. *)
Fixpoint restarts (calls : list (Env * Call)) (st : State) : nat :=
  match calls with
  | [] => O
  | c :: more =>
      (match snd c with
       | call_start _ _ => if isActive st then 1 else 0
       | _ => 0
       end + restarts more (fst (step c st)))%nat
  end.

End Renderer.

End PrintModeProgress.

(** ** The print-mode driver, as far as the progress display goes

    [runPrintMode] creates the renderer when progress is to be shown, starts
    it, hands it every session event while the prompts run (the spinner
    interval fires in between), and, when the prompts have returned, stops
    it before the result is printed. *)

Module PrintMode.

Import PrintModeProgress.

(** [quiet?: boolean]: [undefined] when the option is not given. *)
Definition shouldShowProgress (mode : jsstring) (isTTY : bool)
    (quiet : option bool) : bool :=
  jseq mode (js "text") && isTTY
  && negb (match quiet with Some q => q | None => false end).

Section Driver.

Context {host : Host}.

(** What the progress display of one run writes to stderr: [t] is the time
    of construction, [env] the process at [start], [deliveries] the events
    and ticks that arrive while the prompts run, [env'] the process at
    [stop]. *)
Definition progressOutput (mode : jsstring) (isTTY : bool)
    (quiet : option bool) (t : Z) (env : Env) (m : option Model)
    (level : jsstring) (deliveries : list (Env * Call)) (env' : Env)
    : Output :=
  if shouldShowProgress mode isTTY quiet
  then snd (run ((env, call_start m level) :: deliveries
                   ++ [(env', call_stop)])
              (new t))
  else [].

End Driver.

End PrintMode.

(** ** A host to run the renderer on

    Exact decimal arithmetic on rationals in place of doubles, string-valued
    tool arguments, and a theme that wraps the text in a colour sequence and
    the foreground reset. *)


Module DecimalHost.

Import AnsiText.

Local Open Scope Z_scope.

Definition digits (z : Z) : jsstring := js (NilZero.string_of_int (Z.to_int z)).

(** [q] rounded half up to [d] decimals. *)
Definition toFixed (q : Q) (d : Z) : jsstring :=
  let scale := 10 ^ d in
  let n := Qfloor (Qplus (Qmult q (inject_Z scale)) (1 # 2)) in
  if d <=? 0 then digits n
  else digits (n / scale) ++ js "." ++ skipn 1 (digits (scale + n mod scale)).

Definition toString (q : Q) : jsstring :=
  if Qeq_bool q (inject_Z (Qfloor q)) then digits (Qfloor q) else toFixed q 3.

Definition colour_code (c : ThemeColor) : jsstring :=
  match c with
  | accent => js "36"
  | warning => js "33"
  | error => js "31"
  | dim => js "2"
  end.

Definition fg (c : ThemeColor) (t : jsstring) : jsstring :=
  [ESC; LBRACKET] ++ colour_code c ++ [LOWER_M] ++ t
    ++ [ESC; LBRACKET] ++ js "39" ++ [LOWER_M].

Definition quote (s : jsstring) : jsstring := [34] ++ s ++ [34].

Definition stringify (args : list (jsstring * jsstring)) : jsstring :=
  js "{"
    ++ PrintModeProgress.join (js ",")
         (map (fun kv => quote (fst kv) ++ js ":" ++ quote (snd kv)) args)
    ++ js "}".

#[export] Instance host : Host := {|
  number := Q;
  number_of_Z := inject_Z;
  number_add := Qplus;
  number_mul := Qmult;
  number_div := Qdiv;
  number_gtb := fun a b => negb (Qle_bool a b);
  Math_round := fun q => inject_Z (Qfloor (Qplus q (1 # 2)));
  number_toString := toString;
  number_toFixed := toFixed;
  theme_fg := fg;
  value := jsstring;
  truthy := fun v => 0 <? len v;
  value_String := fun v => v;
  JSON_stringify := stringify
|}.

End DecimalHost.

(** ** Inputs the properties are run on *)

Module Examples.

Import AnsiText PrintModeProgress.

#[local] Existing Instance DecimalHost.host.

Local Open Scope Z_scope.

(** A string made by removing a sequence from inside another one. *)
Definition nested_escape : jsstring :=
  [ESC; LBRACKET; ESC; LBRACKET; 48; LOWER_M; 48; LOWER_M].

(** Five astral characters (U+1F600), two code units each. *)
Definition five_astral : jsstring :=
  [55357; 56832; 55357; 56832; 55357; 56832; 55357; 56832; 55357; 56832].

(** A dim ellipsis: seven code units, three of them visible. *)
Definition dim_ellipsis : jsstring :=
  [ESC; LBRACKET; 50; LOWER_M] ++ ELLIPSIS.

(** A styled text: red [abc], then green [defgh]. *)
Definition styled_text : jsstring :=
  [ESC; LBRACKET; 51; 49; LOWER_M] ++ js "abc"
    ++ [ESC; LBRACKET; 51; 50; LOWER_M] ++ js "defgh".

Definition env0 : Env :=
  {| now := 0; columns := Some 120; HOME := Some (js "/home/u");
     USERPROFILE := None |}.

Definition env1 : Env :=
  {| now := 5080; columns := None; HOME := None; USERPROFILE := None |}.

(** Two minutes and five seconds after the start. *)
Definition env2 : Env :=
  {| now := 125080; columns := Some 80; HOME := None; USERPROFILE := None |}.

Definition test_model : Model :=
  {| id := js "test-model"; reasoning := false; contextWindow := 200000 |}.

Definition assistant_message (blocks : list Content) (i o r w : Z) (c : Q)
    : Message :=
  {| role := ASSISTANT;
     content := blocks;
     usage := {| input := i; output := o; cacheRead := r; cacheWrite := w;
                 cost := c |} |}.

Definition user_message : Message :=
  {| role := js "user";
     content := [];
     usage := {| input := 0; output := 0; cacheRead := 0; cacheWrite := 0;
                 cost := 0%Q |} |}.

(** A session that ends, followed by the start of a second one. *)
Definition two_sessions : list (Env * Call) :=
  [(env0, call_start (Some test_model) OFF);
   (env0, call_handleEvent
            (message_end (assistant_message [] 100 50 0 0 (1 # 100))));
   (env1, call_stop);
   (env1, call_start (Some test_model) OFF)].

Definition grep_snapshot : Message :=
  assistant_message
    [TextContent (js "Let me look.");
     ToolCall (js "grep") [(js "pattern", js "TODO"); (js "path", js "/home/u/src")]]
    0 0 0 0 0%Q.

(** Events and ticks of a session: a user message, an assistant snapshot,
    a tick, an event of a kind without a case. *)
Definition session_updates : list (Env * Call) :=
  [(env0, call_handleEvent (message_start user_message));
   (env0, call_handleEvent (message_update grep_snapshot));
   (env1, call_tick);
   (env1, call_handleEvent (other_event (js "turn_end")))].


(** A [read] call whose path has a line feed in it. *)
Definition read_snapshot : Message :=
  assistant_message [ToolCall (js "read") [(js "path", [97; 10; 98])]]
    0 0 0 0 0%Q.

(** A session that shows the call, then a tick. *)
Definition line_feed_session : list (Env * Call) :=
  [(env0, call_start (Some test_model) OFF);
   (env0, call_handleEvent (message_update read_snapshot));
   (env0, call_tick)].

(** The same text as the command of a [bash] call. *)
Definition bash_snapshot : Message :=
  assistant_message [ToolCall (js "bash") [(js "command", [97; 10; 98])]]
    0 0 0 0 0%Q.

Definition bash_session : list (Env * Call) :=
  [(env0, call_start (Some test_model) OFF);
   (env0, call_handleEvent (message_update bash_snapshot));
   (env0, call_tick)].

(** A terminal of twenty columns. *)
Definition narrow_env : Env :=
  {| now := 0; columns := Some 20; HOME := None; USERPROFILE := None |}.

(** A display started twice, then stopped. *)
Definition double_start : list (Env * Call) :=
  [(env0, call_start (Some test_model) OFF);
   (env0, call_start (Some test_model) OFF);
   (env1, call_stop)].

End Examples.

(** * Properties of the text utilities *)

Module AnsiTextFacts.

Import AnsiText Examples.

(** ** The defining equations, in the form the proofs use *)

Lemma stripAnsi_unfold (str : jsstring) :
  stripAnsi str =
  match regex_exec str with
  | Some (b, _, r) => b ++ stripAnsi r
  | None => str
  end.
Proof.
  rewrite stripAnsi_equation_1. unfold inspect.
  enough (forall o (H : regex_exec str = o),
             stripAnsi_unfold_clause_1 str (exist _ o H) =
             match o with Some (b, _, r) => b ++ stripAnsi r | None => str end)
    as E by apply (E _ eq_refl).
  intros [[[b m] r]|] H; reflexivity.
Qed.

Lemma matchAll_from_unfold (offset : Z) (text : jsstring) :
  matchAll_from offset text =
  match regex_exec text with
  | Some (b, m, r) =>
      (offset + len b, m) :: matchAll_from (offset + len b + len m) r
  | None => []
  end.
Proof.
  rewrite matchAll_from_equation_1. unfold inspect.
  enough (forall o (H : regex_exec text = o),
             matchAll_from_unfold_clause_1 offset text (exist _ o H) =
             match o with
             | Some (b, m, r) =>
                 (offset + len b, m) :: matchAll_from (offset + len b + len m) r
             | None => []
             end)
    as E by apply (E _ eq_refl).
  intros [[[b m] r]|] H; reflexivity.
Qed.

Lemma spec_walk_cons (n : nat) (c : Z) (t : jsstring) :
  spec_walk (S n) (c :: t) =
  match match_ansi (c :: t) with
  | Some (m, r) => m ++ spec_walk (S n) r
  | None => c :: spec_walk n t
  end.
Proof.
  rewrite spec_walk_equation_3. unfold inspect.
  enough (forall o (H : match_ansi (c :: t) = o),
             spec_walk_unfold_clause_3 n c t (exist _ o H) =
             match o with
             | Some (m, r) => m ++ spec_walk (S n) r
             | None => c :: spec_walk n t
             end)
    as E by apply (E _ eq_refl).
  intros [[m r]|] H; reflexivity.
Qed.

Lemma regex_exec_cons (c : Z) (t : jsstring) :
  regex_exec (c :: t) =
  match match_ansi (c :: t) with
  | Some (m, r) => Some ([], m, r)
  | None =>
      match regex_exec t with
      | Some (b, m, r) => Some (c :: b, m, r)
      | None => None
      end
  end.
Proof. reflexivity. Qed.

(** Character by character: a sequence at the head is skipped, any other
    character is kept. *)
Lemma stripAnsi_cons (c : Z) (t : jsstring) :
  stripAnsi (c :: t) =
  match match_ansi (c :: t) with
  | Some (_, r) => stripAnsi r
  | None => c :: stripAnsi t
  end.
Proof.
  rewrite (stripAnsi_unfold (c :: t)), regex_exec_cons.
  destruct (match_ansi (c :: t)) as [[m r]|]; [reflexivity|].
  rewrite (stripAnsi_unfold t).
  destruct (regex_exec t) as [[[b m] r]|]; reflexivity.
Qed.

Lemma stripAnsi_nil : stripAnsi [] = [].
Proof. now rewrite stripAnsi_unfold. Qed.

(** Induction on the length of a string. *)
Lemma jsstring_length_ind (P : jsstring -> Prop) :
  (forall s, (forall t, (length t < length s)%nat -> P t) -> P s) ->
  forall s, P s.
Proof.
  intros IH s. remember (length s) as n eqn:Hn.
  revert s Hn. induction n as [n IHn] using lt_wf_ind.
  intros s ->. apply IH. intros t Ht. now apply (IHn (length t)).
Qed.

(** ** Stripping once *)

Lemma stripAnsi_length_le (s : jsstring) :
  (length (stripAnsi s) <= length s)%nat.
Proof.
  induction s as [s IH] using jsstring_length_ind.
  rewrite stripAnsi_unfold.
  destruct (regex_exec s) as [[[b m] r]|] eqn:E; [|lia].
  pose proof (regex_exec_shorter _ _ _ _ E) as Hr.
  apply regex_exec_app in E as [-> Hm].
  specialize (IH r Hr). rewrite !length_app in *. lia.
Qed.

Lemma stripAnsi_fixed_length (s : jsstring) :
  length (stripAnsi s) = length s <-> regex_exec s = None.
Proof.
  rewrite (stripAnsi_unfold s).
  destruct (regex_exec s) as [[[b m] r]|] eqn:E.
  - split; [|discriminate]. intros H. exfalso.
    apply regex_exec_app in E as [-> Hm].
    pose proof (stripAnsi_length_le r). rewrite !length_app in H. lia.
  - split; reflexivity.
Qed.

(** C3, as stated, fails: stripping [\x1b[\x1b[0m0m] removes the inner
    sequence and leaves [\x1b[0m], of visible width 0, while the visible
    width of the string itself is 4. *)
Lemma stripAnsi_not_width_stable :
  visibleWidth nested_escape = 4
  /\ visibleWidth (stripAnsi nested_escape) = 0
  /\ visibleWidth (stripAnsi nested_escape) <> visibleWidth nested_escape.
Proof. repeat split; vm_compute; discriminate. Qed.

(** C3, amended: stripping never increases the visible width, and the
    visible width of the stripped string equals that of the string exactly
    when the stripped string contains no style-escape sequence (one pass of
    removal can join the text around a removed sequence into a new one). *)
Theorem visibleWidth_stripAnsi (s : jsstring) :
  visibleWidth (stripAnsi s) <= visibleWidth s
  /\ (visibleWidth (stripAnsi s) = visibleWidth s
      <-> regex_exec (stripAnsi s) = None).
Proof.
  unfold visibleWidth, len. split.
  - apply Nat2Z.inj_le, stripAnsi_length_le.
  - rewrite <- stripAnsi_fixed_length. split; intros H.
    + now apply Nat2Z.inj.
    + now rewrite H.
Qed.

(** ** How a match depends on the text around it *)

Lemma ansi_params_stop (t p r : jsstring) (c : Z) :
  ansi_params t = (p, c :: r) -> is_param c = false.
Proof.
  revert p. induction t as [|x t IH]; intros p; simpl; [discriminate|].
  destruct (is_param x) eqn:Hx.
  - destruct (ansi_params t) as [p' r']. intros [= <- ->]. now apply (IH p').
  - now intros [= <- <- <-].
Qed.

(** The parameters read do not depend on what follows the character that
    ended them. *)
Lemma ansi_params_extend (t p r b : jsstring) (c : Z) :
  ansi_params t = (p, c :: r) -> ansi_params (t ++ b) = (p, c :: r ++ b).
Proof.
  revert p. induction t as [|x t IH]; intros p; simpl; [discriminate|].
  destruct (is_param x) eqn:Hx.
  - destruct (ansi_params t) as [p' r'] eqn:Ht. intros [= <- ->].
    now rewrite (IH p' eq_refl).
  - now intros [= <- <- <-].
Qed.

(** A character outside the class ends the parameters wherever it is met. *)
Lemma ansi_params_barrier (t y : jsstring) (e : Z) :
  is_param e = false ->
  ansi_params (t ++ e :: y) =
  (fst (ansi_params t), snd (ansi_params t) ++ e :: y).
Proof.
  intros He. induction t as [|x t IH]; simpl.
  - now rewrite He.
  - destruct (is_param x); [|reflexivity].
    rewrite IH. now destruct (ansi_params t).
Qed.

Lemma ansi_params_exact (t p r q : jsstring) :
  ansi_params t = (p, r) ->
  match q with c :: _ => is_param c = false | [] => True end ->
  ansi_params (p ++ q) = (p, q).
Proof.
  revert p. induction t as [|x t IH]; intros p; simpl.
  - intros [= <- <-] Hq. destruct q as [|c q]; simpl; [reflexivity|].
    now rewrite Hq.
  - destruct (is_param x) eqn:Hx.
    + destruct (ansi_params t) as [p' r'] eqn:Ht. intros [= <- <-] Hq.
      simpl. rewrite Hx. now rewrite (IH p' eq_refl Hq).
    + intros [= <- <-] Hq. destruct q as [|c q]; simpl; [reflexivity|].
      now rewrite Hq.
Qed.

(** A match is a match whatever follows it. *)
Lemma match_ansi_extend (a m r b : jsstring) :
  match_ansi a = Some (m, r) -> match_ansi (a ++ b) = Some (m, r ++ b).
Proof.
  unfold match_ansi. destruct a as [|c0 [|c1 t]]; try discriminate.
  simpl. destruct ((c0 =? ESC) && (c1 =? LBRACKET)); try discriminate.
  destruct (ansi_params t) as [p q] eqn:Ht.
  destruct q as [|c2 q']; try discriminate.
  rewrite (ansi_params_extend _ _ _ b _ Ht).
  destruct (c2 =? LOWER_M); try discriminate.
  now intros [= <- <-].
Qed.

Lemma match_ansi_self (s m r : jsstring) :
  match_ansi s = Some (m, r) -> match_ansi m = Some (m, []).
Proof.
  unfold match_ansi. destruct s as [|c0 [|c1 t]]; try discriminate.
  destruct ((c0 =? ESC) && (c1 =? LBRACKET)) eqn:H01; try discriminate.
  destruct (ansi_params t) as [p q] eqn:Ht.
  destruct q as [|c2 q']; try discriminate.
  destruct (c2 =? LOWER_M) eqn:H2; try discriminate.
  intros [= <- <-]. rewrite H01.
  rewrite (ansi_params_exact t p (c2 :: q') [c2] Ht).
  - now rewrite H2.
  - eapply ansi_params_stop; eassumption.
Qed.

Lemma match_ansi_replace_rest (s m r r' : jsstring) :
  match_ansi s = Some (m, r) -> match_ansi (m ++ r') = Some (m, r').
Proof.
  intros H. apply match_ansi_self in H.
  now apply (match_ansi_extend _ _ _ r') in H.
Qed.

Lemma match_ansi_head (s m r : jsstring) :
  match_ansi s = Some (m, r) -> exists m', m = ESC :: m'.
Proof.
  unfold match_ansi. destruct s as [|c0 [|c1 t]]; try discriminate.
  destruct ((c0 =? ESC) && (c1 =? LBRACKET)) eqn:H01; try discriminate.
  destruct (ansi_params t) as [p q].
  destruct q as [|c2 q']; try discriminate.
  destruct (c2 =? LOWER_M); try discriminate.
  intros [= <- <-]. apply andb_prop in H01 as [H0 _].
  apply Z.eqb_eq in H0 as ->. now eexists.
Qed.

(** The escape character is no part of a sequence except its first
    character: a match that starts before an escape character ends before
    it. *)
Lemma match_ansi_barrier (x y : jsstring) :
  x <> [] ->
  match_ansi (x ++ ESC :: y) =
  match match_ansi x with
  | Some (m, r) => Some (m, r ++ ESC :: y)
  | None => None
  end.
Proof.
  intros Hx. destruct x as [|c0 x]; [contradiction|].
  unfold match_ansi. simpl. destruct x as [|c1 t]; simpl.
  - replace (ESC =? LBRACKET) with false by reflexivity.
    now rewrite andb_false_r.
  - destruct ((c0 =? ESC) && (c1 =? LBRACKET)); [|reflexivity].
    rewrite (ansi_params_barrier t y ESC eq_refl).
    destruct (ansi_params t) as [p q]. simpl.
    destruct q as [|c2 q']; simpl; [reflexivity|].
    now destruct (c2 =? LOWER_M).
Qed.

(** Stripping distributes over a cut made in front of an escape character. *)
Lemma stripAnsi_app_esc (x y : jsstring) :
  stripAnsi (x ++ ESC :: y) = stripAnsi x ++ stripAnsi (ESC :: y).
Proof.
  induction x as [x IH] using jsstring_length_ind.
  destruct x as [|c t]; [now rewrite stripAnsi_nil|].
  change ((c :: t) ++ ESC :: y) with (c :: (t ++ ESC :: y)).
  rewrite stripAnsi_cons, (stripAnsi_cons c t).
  change (c :: (t ++ ESC :: y)) with ((c :: t) ++ ESC :: y).
  rewrite match_ansi_barrier by discriminate.
  destruct (match_ansi (c :: t)) as [[m r]|] eqn:E.
  - apply IH. apply match_ansi_app in E as [E Hm].
    rewrite E, length_app. lia.
  - simpl. f_equal. apply IH. simpl. lia.
Qed.

(** ** The walk of the specification *)

Lemma spec_walk_0 (s : jsstring) : spec_walk 0 s = [].
Proof. now rewrite spec_walk_equation_1. Qed.

Lemma spec_walk_nil (n : nat) : spec_walk n [] = [].
Proof.
  destruct n; [apply spec_walk_0 | now rewrite spec_walk_equation_2].
Qed.

(** What the walk copies is a prefix of the string. *)
Lemma spec_walk_prefix (n : nat) (s : jsstring) :
  exists rest, s = spec_walk n s ++ rest.
Proof.
  revert n. induction s as [s IH] using jsstring_length_ind. intros n.
  destruct n as [|n]; [rewrite spec_walk_0; now exists s|].
  destruct s as [|c t]; [rewrite spec_walk_nil; now exists []|].
  rewrite spec_walk_cons.
  destruct (match_ansi (c :: t)) as [[m r]|] eqn:E.
  - apply match_ansi_app in E as [E Hm].
    destruct (IH r) with (n := S n) as [rest Hrest].
    { rewrite E, length_app. lia. }
    exists rest. rewrite E at 1. rewrite <- app_assoc. now rewrite <- Hrest.
  - destruct (IH t) with (n := n) as [rest Hrest]; [simpl; lia|].
    exists rest. simpl. now rewrite <- Hrest.
Qed.

(** Stripped, the walk is the first [n] visible characters: it copies no
    more than [n] plain characters and all of them when there are [n]. *)
Lemma stripAnsi_spec_walk (n : nat) (s : jsstring) :
  stripAnsi (spec_walk n s) = firstn n (stripAnsi s).
Proof.
  revert n. induction s as [s IH] using jsstring_length_ind. intros n.
  destruct n as [|n]; [now rewrite spec_walk_0, stripAnsi_nil|].
  destruct s as [|c t]; [now rewrite spec_walk_nil, stripAnsi_nil|].
  rewrite spec_walk_cons, (stripAnsi_cons c t).
  destruct (match_ansi (c :: t)) as [[m r]|] eqn:E.
  - pose proof (match_ansi_replace_rest _ _ _ (spec_walk (S n) r) E) as Hm.
    destruct (match_ansi_head _ _ _ E) as [m' ->].
    change ((ESC :: m') ++ spec_walk (S n) r)
      with (ESC :: (m' ++ spec_walk (S n) r)) in *.
    rewrite stripAnsi_cons, Hm. apply IH.
    apply match_ansi_app in E as [E _]. rewrite E, length_app. simpl. lia.
  - rewrite stripAnsi_cons.
    destruct (match_ansi (c :: spec_walk n t)) as [[m r]|] eqn:E'.
    + exfalso. destruct (spec_walk_prefix n t) as [rest Hrest].
      apply (match_ansi_extend _ _ _ rest) in E'.
      rewrite <- app_comm_cons, <- Hrest in E'. congruence.
    + simpl. f_equal. apply IH. simpl. lia.
Qed.

Lemma spec_walk_no_match (n : nat) (s : jsstring) :
  regex_exec s = None -> spec_walk n s = firstn n s.
Proof.
  revert n. induction s as [|c t IH]; intros n H.
  - rewrite spec_walk_nil. now destruct n.
  - destruct n as [|n]; [now rewrite spec_walk_0|].
    rewrite regex_exec_cons in H. rewrite spec_walk_cons.
    destruct (match_ansi (c :: t)) as [[m r]|]; [discriminate|].
    destruct (regex_exec t) as [[[b m] r]|]; [discriminate|].
    simpl. now rewrite IH.
Qed.

(** Up to the leftmost sequence the walk copies plain characters; it goes
    on behind the sequence only if budget is left when it gets there. *)
Lemma spec_walk_match (n : nat) (s b m r : jsstring) :
  regex_exec s = Some (b, m, r) ->
  spec_walk n s =
  if (n <=? length b)%nat then firstn n b
  else b ++ m ++ spec_walk (n - length b) r.
Proof.
  revert n b. induction s as [|c t IH]; intros n b H; [discriminate|].
  destruct n as [|n]; [now rewrite spec_walk_0|].
  rewrite regex_exec_cons in H. rewrite spec_walk_cons.
  destruct (match_ansi (c :: t)) as [[m' r']|].
  - injection H as <- <- <-. reflexivity.
  - destruct (regex_exec t) as [[[b' m'] r']|] eqn:E; [|discriminate].
    injection H as <- <- <-. rewrite (IH n b' eq_refl). simpl.
    destruct (n <=? length b')%nat; reflexivity.
Qed.

(** ** The loops of [truncateToWidth] *)

Lemma no_surrogate_pair_app (a b : jsstring) :
  no_surrogate_pair (a ++ b) = true ->
  no_surrogate_pair a = true /\ no_surrogate_pair b = true.
Proof.
  induction a as [|c a IH]; simpl; [now split|].
  intros H. apply andb_prop in H as [Hc Hab].
  destruct (IH Hab) as [Ha Hb]. split; [|assumption].
  rewrite Ha, andb_true_r. destruct a as [|d a]; [reflexivity|exact Hc].
Qed.

Lemma codePoints_no_surrogate_pair (s : jsstring) :
  no_surrogate_pair s = true -> codePoints s = map (fun c => [c]) s.
Proof.
  induction s as [|c t IH]; [reflexivity|].
  intros H. simpl in H. apply andb_prop in H as [Hc Ht].
  simpl. destruct t as [|d t']; [reflexivity|].
  apply negb_true_iff in Hc. rewrite Hc. f_equal. now apply IH.
Qed.

Lemma copy_visible_units (targetWidth : Z) (l : jsstring) (vc : Z)
    (res : jsstring) :
  copy_visible targetWidth (map (fun c => [c]) l) vc res =
  (vc + Z.of_nat (Nat.min (Z.to_nat (targetWidth - vc)) (length l)),
   res ++ firstn (Z.to_nat (targetWidth - vc)) l).
Proof.
  revert vc res. induction l as [|c l IH]; intros vc res; simpl.
  - rewrite Nat.min_0_r, Z.add_0_r, firstn_nil, app_nil_r. reflexivity.
  - destruct (vc >=? targetWidth) eqn:Hge.
    + apply Z.geb_le in Hge.
      replace (Z.to_nat (targetWidth - vc)) with 0%nat by lia.
      simpl. now rewrite Z.add_0_r, app_nil_r.
    + rewrite Z.geb_leb in Hge. apply Z.leb_gt in Hge.
      rewrite IH.
      replace (Z.to_nat (targetWidth - vc))
        with (S (Z.to_nat (targetWidth - (vc + 1)))) by lia.
      simpl. rewrite <- app_assoc. simpl. f_equal. lia.
Qed.

Lemma slice_middle (pre b rest : jsstring) :
  slice (pre ++ b ++ rest) (len pre) (len pre + len b) = b.
Proof.
  unfold slice, len. rewrite !length_app.
  replace (Z.of_nat (length pre) <? 0) with false by (symmetry; apply Z.ltb_ge; lia).
  replace (Z.of_nat (length pre) + Z.of_nat (length b) <? 0)
    with false by (symmetry; apply Z.ltb_ge; lia).
  rewrite !Z.min_l by lia.
  replace (Z.to_nat (Z.of_nat (length pre) + Z.of_nat (length b)
                     - Z.of_nat (length pre))) with (length b) by lia.
  rewrite Nat2Z.id, skipn_app, skipn_all, Nat.sub_diag. simpl.
  rewrite firstn_app, firstn_all, Nat.sub_diag. simpl. apply app_nil_r.
Qed.

Lemma slice_from_app (pre s : jsstring) :
  slice_from (pre ++ s) (len pre) = s.
Proof.
  unfold slice_from, slice, len. rewrite !length_app.
  replace (Z.of_nat (length pre) <? 0) with false by (symmetry; apply Z.ltb_ge; lia).
  replace (Z.of_nat (length pre + length s) <? 0)
    with false by (symmetry; apply Z.ltb_ge; lia).
  rewrite !Z.min_l by lia.
  replace (Z.to_nat (Z.of_nat (length pre + length s) - Z.of_nat (length pre)))
    with (length s) by lia.
  rewrite Nat2Z.id, skipn_app, skipn_all, Nat.sub_diag. simpl.
  apply firstn_all.
Qed.

(** The loop invariant: with [pre] consumed, [lastIndex] at its end and
    [visibleCount] characters counted, the loops append the walk of what is
    left with what is left of the budget. *)
Lemma walk_matches_spec_walk (s pre : jsstring) (targetWidth vc : Z)
    (res : jsstring) :
  no_surrogate_pair s = true ->
  finish (pre ++ s) targetWidth
    (walk_matches (pre ++ s) targetWidth (matchAll_from (len pre) s)
       vc res (len pre))
  = res ++ spec_walk (Z.to_nat (targetWidth - vc)) s.
Proof.
  revert pre vc res. induction s as [s IH] using jsstring_length_ind.
  intros pre vc res Hs. rewrite matchAll_from_unfold.
  destruct (regex_exec s) as [[[b m] r]|] eqn:E.
  - rewrite (spec_walk_match _ _ _ _ _ E).
    pose proof (regex_exec_shorter _ _ _ _ E) as Hr.
    apply regex_exec_app in E as [-> Hm].
    destruct (no_surrogate_pair_app _ _ Hs) as [Hb Hmr].
    destruct (no_surrogate_pair_app _ _ Hmr) as [_ Hr'].
    cbn [walk_matches]. rewrite slice_middle.
    rewrite (codePoints_no_surrogate_pair b Hb), copy_visible_units.
    destruct (Z.to_nat (targetWidth - vc) <=? length b)%nat eqn:Hk.
    + apply Nat.leb_le in Hk. rewrite Nat.min_l by assumption.
      replace (vc + Z.of_nat (Z.to_nat (targetWidth - vc)) >=? targetWidth)
        with true by (symmetry; apply Z.geb_le; lia).
      unfold finish.
      replace (vc + Z.of_nat (Z.to_nat (targetWidth - vc)) <? targetWidth)
        with false by (symmetry; apply Z.ltb_ge; lia).
      reflexivity.
    + apply Nat.leb_gt in Hk. rewrite Nat.min_r by lia.
      replace (vc + Z.of_nat (length b) >=? targetWidth) with false
        by (symmetry; rewrite Z.geb_leb; apply Z.leb_gt; lia).
      rewrite firstn_all2 by lia.
      replace (pre ++ b ++ m ++ r) with ((pre ++ b ++ m) ++ r)
        by (now rewrite <- !app_assoc).
      replace (len pre + len b + len m) with (len (pre ++ b ++ m))
        by (unfold len; rewrite !length_app; lia).
      rewrite (IH r Hr _ _ _ Hr').
      rewrite <- !app_assoc. do 3 f_equal. f_equal. lia.
  - cbn [walk_matches finish].
    destruct (vc <? targetWidth) eqn:Hlt.
    + rewrite slice_from_app, (codePoints_no_surrogate_pair s Hs).
      rewrite copy_visible_units. simpl.
      now rewrite (spec_walk_no_match _ _ E).
    + apply Z.ltb_ge in Hlt.
      replace (Z.to_nat (targetWidth - vc)) with 0%nat by lia.
      now rewrite spec_walk_0, app_nil_r.
Qed.

Lemma truncateToWidth_finish (text : jsstring) (maxWidth : Z)
    (ellipsis : jsstring) :
  maxWidth < visibleWidth text ->
  len ellipsis < maxWidth ->
  truncateToWidth text maxWidth ellipsis =
  finish text (maxWidth - len ellipsis)
    (walk_matches text (maxWidth - len ellipsis) (matchAll text) 0 [] 0)
    ++ RESET ++ ellipsis.
Proof.
  intros Hw He. unfold truncateToWidth.
  replace (visibleWidth text <=? maxWidth) with false
    by (symmetry; apply Z.leb_gt; lia).
  replace (maxWidth - len ellipsis <=? 0) with false
    by (symmetry; apply Z.leb_gt; lia).
  destruct (walk_matches text (maxWidth - len ellipsis) (matchAll text) 0 [] 0)
    as [[vc res] li].
  reflexivity.
Qed.

(** ** Truncation *)

(** Identity below the threshold. *)
Lemma truncateToWidth_fits (s : jsstring) (maxWidth : Z) (ellipsis : jsstring) :
  visibleWidth s <= maxWidth -> truncateToWidth s maxWidth ellipsis = s.
Proof.
  intros H. unfold truncateToWidth.
  now replace (visibleWidth s <=? maxWidth) with true
    by (symmetry; apply Z.leb_le; lia).
Qed.

Lemma truncateToWidth_degenerate (s : jsstring) (maxWidth : Z)
    (ellipsis : jsstring) :
  maxWidth < visibleWidth s ->
  maxWidth <= len ellipsis ->
  truncateToWidth s maxWidth ellipsis = slice ellipsis 0 maxWidth.
Proof.
  intros Hw He. unfold truncateToWidth.
  replace (visibleWidth s <=? maxWidth) with false
    by (symmetry; apply Z.leb_gt; lia).
  now replace (maxWidth - len ellipsis <=? 0) with true
    by (symmetry; apply Z.leb_le; lia).
Qed.

Lemma truncateToWidth_copied (s : jsstring) (maxWidth : Z)
    (ellipsis : jsstring) :
  maxWidth < visibleWidth s ->
  len ellipsis < maxWidth ->
  no_surrogate_pair s = true ->
  truncateToWidth s maxWidth ellipsis =
  spec_walk (Z.to_nat (maxWidth - len ellipsis)) s ++ RESET ++ ellipsis.
Proof.
  intros Hw He Hs. rewrite truncateToWidth_finish by assumption.
  pose proof (walk_matches_spec_walk s [] (maxWidth - len ellipsis) 0 [] Hs)
    as H.
  simpl in H. unfold matchAll. change (len (@nil Z)) with 0 in H.
  rewrite H. now rewrite Z.sub_0_r.
Qed.

(** C1 at a string of astral characters: the text is 10 wide, it is cut for
    a width of 8, and what comes back is all of it followed by the reset and
    the ellipsis, 13 wide.  The loops count one per code point, the width
    counts one per code unit. *)
Theorem truncateToWidth_astral_overflow :
  visibleWidth five_astral = 10
  /\ truncateToWidth five_astral 8 ELLIPSIS = five_astral ++ RESET ++ ELLIPSIS
  /\ visibleWidth (truncateToWidth five_astral 8 ELLIPSIS) = 13.
Proof. repeat split; vm_compute; reflexivity. Qed.

(** Where no surrogate pair occurs, the bound of C1 holds. *)
Theorem truncateToWidth_width_bound (s : jsstring) (maxWidth : Z) :
  0 <= maxWidth ->
  no_surrogate_pair s = true ->
  visibleWidth (truncateToWidth s maxWidth ELLIPSIS) <= maxWidth.
Proof.
  intros H0 Hs.
  destruct (Z.le_gt_cases (visibleWidth s) maxWidth) as [Hfit|Hw].
  { now rewrite truncateToWidth_fits. }
  destruct (Z.le_gt_cases maxWidth (len ELLIPSIS)) as [He|He].
  - rewrite truncateToWidth_degenerate by assumption.
    change (len ELLIPSIS) with 3 in He.
    assert (maxWidth = 0 \/ maxWidth = 1 \/ maxWidth = 2 \/ maxWidth = 3)
      as [->|[->|[->| ->]]] by lia; vm_compute; discriminate.
  - rewrite truncateToWidth_copied by assumption.
    unfold visibleWidth, RESET.
    change ((ESC :: [LBRACKET; 48; LOWER_M]) ++ ELLIPSIS)
      with (ESC :: ([LBRACKET; 48; LOWER_M] ++ ELLIPSIS)).
    rewrite stripAnsi_app_esc, stripAnsi_spec_walk.
    replace (stripAnsi (ESC :: [LBRACKET; 48; LOWER_M] ++ ELLIPSIS))
      with ELLIPSIS by (vm_compute; reflexivity).
    unfold len. rewrite length_app, length_firstn.
    change (length ELLIPSIS) with 3%nat in *. unfold len in He. simpl in He. lia.
Qed.

Lemma slice_prefix (s : jsstring) (n : Z) :
  0 <= n -> slice s 0 n = firstn (Z.to_nat n) s.
Proof.
  intros Hn. unfold slice. change (0 <? 0) with false. cbv iota.
  replace (n <? 0) with false by (symmetry; apply Z.ltb_ge; lia).
  replace (Z.min 0 (len s)) with 0 by (unfold len; lia).
  rewrite Z.sub_0_r. change (skipn (Z.to_nat 0) s) with s.
  destruct (Z.le_gt_cases n (len s)) as [H|H].
  - now rewrite Z.min_l by lia.
  - rewrite Z.min_r by lia. unfold len in *. rewrite Nat2Z.id.
    now rewrite firstn_all, firstn_all2 by lia.
Qed.

(** Away from the boundary the source does what the specification words:
    for a text without surrogate pairs, an ellipsis without style
    sequences and a width other than the length of the ellipsis. *)
Lemma truncateToWidth_refines_spec (s : jsstring) (maxWidth : Z)
    (ellipsis : jsstring) :
  no_surrogate_pair s = true ->
  regex_exec ellipsis = None ->
  0 <= maxWidth ->
  maxWidth <> len ellipsis ->
  truncateToWidth s maxWidth ellipsis = spec_truncateToWidth s maxWidth ellipsis.
Proof.
  intros Hs He H0 Hne. unfold spec_truncateToWidth.
  assert (visibleWidth ellipsis = len ellipsis) as Hw.
  { unfold visibleWidth. now rewrite stripAnsi_unfold, He. }
  rewrite Hw.
  destruct (visibleWidth s <=? maxWidth) eqn:Hfit.
  - apply truncateToWidth_fits. now apply Z.leb_le.
  - apply Z.leb_gt in Hfit.
    destruct (maxWidth <? len ellipsis) eqn:Hlt.
    + apply Z.ltb_lt in Hlt.
      rewrite truncateToWidth_degenerate by lia.
      now rewrite slice_prefix, spec_walk_no_match.
    + apply Z.ltb_ge in Hlt. apply truncateToWidth_copied; [lia|lia|exact Hs].
Qed.

(** C2, as stated, fails where [maxWidth] equals the ellipsis width: the
    source returns the ellipsis alone, the wording asks for the walk with an
    empty budget, then the reset, then the ellipsis. *)
Lemma truncateToWidth_boundary :
  visibleWidth (js "abcd") > 3
  /\ truncateToWidth (js "abcd") 3 ELLIPSIS = ELLIPSIS
  /\ spec_truncateToWidth (js "abcd") 3 ELLIPSIS = RESET ++ ELLIPSIS
  /\ truncateToWidth (js "abcd") 3 ELLIPSIS
     <> spec_truncateToWidth (js "abcd") 3 ELLIPSIS.
Proof. repeat split; vm_compute; discriminate. Qed.

(** The budget is counted from the length of the ellipsis, not from its
    visible width: with a styled ellipsis of visible width 3 and a width of
    6, nothing of the text is kept. *)
Lemma truncateToWidth_styled_ellipsis :
  visibleWidth dim_ellipsis = 3
  /\ truncateToWidth (js "abcdefgh") 6 dim_ellipsis
     = [ESC; LBRACKET; 50; LOWER_M] ++ js ".."
  /\ spec_truncateToWidth (js "abcdefgh") 6 dim_ellipsis
     = js "abc" ++ RESET ++ dim_ellipsis.
Proof. repeat split. Qed.

(** C2, amended: for a text wider than [maxWidth], the ellipsis cut to
    [maxWidth] code units comes back exactly when [maxWidth] is at most the
    length of the ellipsis; otherwise, for a text without surrogate pairs,
    what comes back is what the walk copies, then the reset, then the
    ellipsis, where the walk copies a prefix of the text whose plain
    characters are the first [maxWidth - ellipsis.length] plain characters of
    the text (sequences met before the budget is used up are copied
    unchanged and cost nothing). *)
Theorem truncateToWidth_walk (s : jsstring) (maxWidth : Z)
    (ellipsis : jsstring) :
  maxWidth < visibleWidth s ->
  (maxWidth <= len ellipsis ->
   truncateToWidth s maxWidth ellipsis = slice ellipsis 0 maxWidth)
  /\ (len ellipsis < maxWidth ->
      no_surrogate_pair s = true ->
      let copied := spec_walk (Z.to_nat (maxWidth - len ellipsis)) s in
      truncateToWidth s maxWidth ellipsis = copied ++ RESET ++ ellipsis
      /\ (exists rest, s = copied ++ rest)
      /\ stripAnsi copied
         = firstn (Z.to_nat (maxWidth - len ellipsis)) (stripAnsi s)
      /\ visibleWidth copied = maxWidth - len ellipsis).
Proof.
  intros Hw. split.
  - intros He. now apply truncateToWidth_degenerate.
  - intros He Hs copied. subst copied. repeat split.
    + now apply truncateToWidth_copied.
    + apply spec_walk_prefix.
    + apply stripAnsi_spec_walk.
    + unfold visibleWidth in *. rewrite stripAnsi_spec_walk.
      unfold len in *. rewrite length_firstn. lia.
Qed.

Lemma truncateToWidth_walk_witness :
  6 < visibleWidth styled_text
  /\ no_surrogate_pair styled_text = true
  /\ truncateToWidth styled_text 6 ELLIPSIS
     = [ESC; LBRACKET; 51; 49; LOWER_M] ++ js "abc" ++ RESET ++ ELLIPSIS
  /\ truncateToWidth styled_text 2 ELLIPSIS = js "..".
Proof.
  assert (6 < visibleWidth styled_text) as H6 by (vm_compute; reflexivity).
  assert (2 < visibleWidth styled_text) as H2 by (vm_compute; reflexivity).
  assert (no_surrogate_pair styled_text = true) as Hs by (vm_compute; reflexivity).
  split; [exact H6|]. split; [exact Hs|]. split.
  - destruct (truncateToWidth_walk styled_text 6 ELLIPSIS H6) as [_ H].
    destruct H as [E _]; [vm_compute; reflexivity | exact Hs |].
    rewrite E. vm_compute. reflexivity.
  - destruct (truncateToWidth_walk styled_text 2 ELLIPSIS H2) as [H _].
    rewrite H; [vm_compute; reflexivity | vm_compute; discriminate].
Defined.

End AnsiTextFacts.

(** * Properties of the progress renderer *)

Module PrintModeProgressFacts.

Import AnsiText PrintModeProgress.

Section Facts.

Context {host : Host}.

(** ** [render] *)

Lemma render_inactive (env : Env) (st : State) :
  isActive st = false -> render env st = (st, []).
Proof. intros H. unfold render. now rewrite H. Qed.

Lemma render_active (env : Env) (st : State) :
  isActive st = true ->
  render env st =
  (set_hasRenderedOnce true st,
   [(if hasRenderedOnce st then MOVE_UP else []) ++ frame_of env st]).
Proof. intros H. unfold render. now rewrite H. Qed.

(** ** What the [switch] of [handleEvent] leaves alone *)

Lemma same_session_refl (st : State) : same_session st st.
Proof. repeat split. Qed.

Lemma same_stats_refl (st : State) : same_stats st st.
Proof. repeat split. Qed.

Lemma updateFromAssistantMessage_same (env : Env) (msg : Message) (st : State) :
  same_session st (updateFromAssistantMessage env msg st)
  /\ same_stats st (updateFromAssistantMessage env msg st).
Proof.
  unfold updateFromAssistantMessage.
  repeat match goal with
         | |- context [match ?x with _ => _ end] => destruct x
         end;
    split; repeat split.
Qed.

Lemma applyEvent_same_session (env : Env) (event : AgentSessionEvent)
    (st : State) :
  same_session st (applyEvent env event st).
Proof.
  destruct event as [msg|msg|msg| | |]; simpl;
    try destruct (jseq (role msg) ASSISTANT);
    try apply same_session_refl; try (repeat split; fail).
  apply updateFromAssistantMessage_same.
Qed.

Lemma applyEvent_same_stats (env : Env) (event : AgentSessionEvent)
    (st : State) :
  completes (env, call_handleEvent event) = false ->
  same_stats st (applyEvent env event st).
Proof.
  unfold completes. simpl.
  destruct event as [msg|msg|msg| | |]; simpl; intros H;
    try rewrite H;
    try destruct (jseq (role msg) ASSISTANT);
    try apply same_stats_refl; try (repeat split; fail).
  apply updateFromAssistantMessage_same.
Qed.

Lemma applyEvent_ignored (env : Env) (event : AgentSessionEvent) (st : State) :
  ignored event = true -> applyEvent env event st = st.
Proof.
  destruct event as [msg|msg|msg| | |]; simpl; try discriminate;
    try (intros H; apply negb_true_iff in H; now rewrite H).
  reflexivity.
Qed.

(** ** One event, while the display is active *)

(** C10: while the display is active, a call of [handleEvent] writes to
    stderr exactly once, the frame of the state the event leaves; for an
    event of a kind without a case, or a message whose role is not
    [assistant], that state is the state before, so the current frame is
    painted again: activity and usage are unchanged. *)
Theorem handleEvent_renders_once (env : Env) (event : AgentSessionEvent)
    (st : State) :
  isActive st = true ->
  snd (handleEvent env event st)
  = [(if hasRenderedOnce st then MOVE_UP else [])
       ++ frame_of env (applyEvent env event st)]
  /\ isActive (fst (handleEvent env event st)) = true
  /\ (ignored event = true ->
      fst (handleEvent env event st) = set_hasRenderedOnce true st
      /\ snd (handleEvent env event st)
         = [(if hasRenderedOnce st then MOVE_UP else []) ++ frame_of env st]
      /\ activityState (fst (handleEvent env event st)) = activityState st
      /\ usageTotals (fst (handleEvent env event st)) = usageTotals st
      /\ context (fst (handleEvent env event st)) = context st).
Proof.
  intros Hact. unfold handleEvent. rewrite Hact. simpl.
  destruct (applyEvent_same_session env event st) as (Ha & Hr & _).
  rewrite render_active by (now rewrite Ha). rewrite Hr. simpl.
  split; [reflexivity|]. split; [now rewrite Ha|].
  intros Hign. rewrite (applyEvent_ignored env event st Hign).
  repeat split.
Qed.

(** ** After [stop] *)

Lemma handleEvent_inactive (env : Env) (event : AgentSessionEvent) (st : State) :
  isActive st = false -> handleEvent env event st = (st, []).
Proof. intros H. unfold handleEvent. now rewrite H. Qed.

Lemma tick_inactive (env : Env) (st : State) :
  isActive st = false ->
  tick env st
  = (set_spinnerFrame (Z.rem (spinnerFrame st + 1) (len SPINNER_FRAMES)) st, []).
Proof. intros H. unfold tick. now rewrite render_inactive. Qed.

Lemma run_updates_inactive (calls : list (Env * Call)) (st : State) :
  forallb is_update calls = true ->
  isActive st = false ->
  snd (run calls st) = []
  /\ isActive (fst (run calls st)) = false
  /\ activityState (fst (run calls st)) = activityState st
  /\ usageTotals (fst (run calls st)) = usageTotals st
  /\ context (fst (run calls st)) = context st
  /\ hasReceivedStats (fst (run calls st)) = hasReceivedStats st.
Proof.
  revert st. induction calls as [|[env c] calls IH]; intros st Hall Hst.
  - repeat split; assumption.
  - simpl in Hall. apply andb_prop in Hall as [Hc Hall].
    cbn [run]. unfold step. cbn [fst snd].
    destruct c as [m level|event| |]; try discriminate.
    + rewrite handleEvent_inactive by assumption.
      specialize (IH st Hall Hst).
      destruct (run calls st) as [st2 out2]. exact IH.
    + rewrite tick_inactive by assumption.
      specialize (IH (set_spinnerFrame
                        (Z.rem (spinnerFrame st + 1) (len SPINNER_FRAMES)) st)
                     Hall Hst).
      destruct (run calls _) as [st2 out2]. exact IH.
Qed.

(** C9: after [stop], [handleEvent] returns the state it was given and
    writes nothing, the callback of the clock writes nothing, and however
    many events and ticks arrive, nothing is written and the activity, the
    usage totals and the context usage stay what they were. *)
Theorem stopped_display_is_silent (st : State) :
  (forall env event,
      handleEvent env event (fst (stop st)) = (fst (stop st), []))
  /\ (forall env, snd (tick env (fst (stop st))) = [])
  /\ (forall calls,
         forallb is_update calls = true ->
         snd (run calls (fst (stop st))) = []
         /\ activityState (fst (run calls (fst (stop st)))) = activityState st
         /\ usageTotals (fst (run calls (fst (stop st)))) = usageTotals st
         /\ context (fst (run calls (fst (stop st)))) = context st).
Proof.
  split; [|split].
  - intros env event. now apply handleEvent_inactive.
  - intros env. now rewrite tick_inactive.
  - intros calls Hall.
    destruct (run_updates_inactive calls (fst (stop st)) Hall eq_refl)
      as (Hout & _ & Hact & Hu & Hc & _).
    repeat split; assumption.
Qed.

(** ** Sessions *)

Lemma start_state (env : Env) (m : option Model) (level : jsstring)
    (st : State) :
  exists st1,
    start env m level st
    = (set_hasRenderedOnce true st1, [frame_of env st1])
    /\ isActive st1 = true
    /\ startTime st1 = now env
    /\ spinnerInterval st1 = Some SPINNER_INTERVAL_MS
    /\ hasReceivedStats st1 = false
    /\ context st1 = {| tokens := 0;
                        window := match m with
                                  | Some md => contextWindow md
                                  | None => 0
                                  end |}
    /\ model st1 = m
    /\ thinkingLevel st1 = level
    /\ activityState st1 = System (js "Starting...")
    /\ usageTotals st1 = usageTotals st.
Proof.
  eexists. unfold start. rewrite render_active by reflexivity.
  cbn [hasRenderedOnce app]. repeat split.
Qed.

Lemma step_update_active (c : Env * Call) (st : State) :
  is_update c = true ->
  isActive st = true ->
  exists st1,
    step c st
    = (set_hasRenderedOnce true st1,
       [(if hasRenderedOnce st then MOVE_UP else []) ++ frame_of (fst c) st1])
    /\ isActive st1 = true
    /\ startTime st1 = startTime st
    /\ model st1 = model st
    /\ thinkingLevel st1 = thinkingLevel st
    /\ window (context st1) = window (context st)
    /\ (completes c = false -> same_stats st st1).
Proof.
  destruct c as [env c]. unfold is_update, step. cbn [fst snd].
  intros Hc Hact. destruct c as [m level|event| |]; try discriminate.
  - exists (applyEvent env event st).
    destruct (applyEvent_same_session env event st)
      as (Ha & Hr & _ & Ht & Hm & Hl & Hw).
    unfold handleEvent. rewrite Hact. cbn [negb].
    rewrite render_active by (now rewrite Ha). rewrite Hr, Ha.
    repeat split; try assumption; apply applyEvent_same_stats; assumption.
  - eexists. unfold tick. rewrite render_active by exact Hact.
    cbn [hasRenderedOnce set_spinnerFrame]. repeat split; assumption.
Qed.

Lemma run_updates_active (calls : list (Env * Call)) (st : State) :
  forallb is_update calls = true ->
  isActive st = true ->
  hasRenderedOnce st = true ->
  length (snd (run calls st)) = length calls
  /\ Forall (fun w => exists a s, w = MOVE_UP ++ frame a s) (snd (run calls st))
  /\ isActive (fst (run calls st)) = true
  /\ startTime (fst (run calls st)) = startTime st
  /\ model (fst (run calls st)) = model st
  /\ thinkingLevel (fst (run calls st)) = thinkingLevel st
  /\ window (context (fst (run calls st))) = window (context st)
  /\ (forallb (fun c => negb (completes c)) calls = true ->
      same_stats st (fst (run calls st))).
Proof.
  revert st. induction calls as [|c calls IH]; intros st Hall Hact Hr.
  - simpl. repeat split; auto.
  - simpl in Hall. apply andb_prop in Hall as [Hc Hall].
    destruct (step_update_active c st Hc Hact)
      as (st1 & Hstep & Ha1 & Ht1 & Hm1 & Hl1 & Hw1 & Hs1).
    cbn [run]. rewrite Hstep, Hr.
    specialize (IH (set_hasRenderedOnce true st1) Hall Ha1 eq_refl).
    destruct (run calls (set_hasRenderedOnce true st1)) as [st2 out2].
    cbn [fst snd] in *.
    destruct IH as (Hlen & Hall2 & Ha2 & Ht2 & Hm2 & Hl2 & Hw2 & Hs2).
    split; [simpl; now rewrite Hlen|].
    split; [constructor; [|exact Hall2]; unfold frame_of; now eexists; eexists|].
    split; [exact Ha2|]. split; [now rewrite Ht2|]. split; [now rewrite Hm2|].
    split; [now rewrite Hl2|]. split; [now rewrite Hw2|].
    intros Hnone. apply andb_prop in Hnone as [Hn Hrest].
    apply negb_true_iff in Hn. destruct (Hs1 Hn) as (Hu & Hk & Hh).
    destruct (Hs2 Hrest) as (Hu2 & Hk2 & Hh2).
    unfold same_stats. cbn [usageTotals context hasReceivedStats
                             set_hasRenderedOnce] in *.
    rewrite Hu2, Hk2, Hh2. repeat split; assumption.
Qed.

(** *** The lines of a write *)

Lemma line_feeds_app (a b : jsstring) :
  line_feeds (a ++ b) = (line_feeds a + line_feeds b)%nat.
Proof. apply count_occ_app. Qed.

(** A frame has three line feeds of its own: it covers four lines exactly
    when the two lines it shows hold none. *)
Lemma frame_line_feeds (a s : jsstring) :
  line_feeds (frame a s) = (3 + line_feeds a + line_feeds s)%nat.
Proof.
  unfold frame. rewrite !line_feeds_app.
  change (line_feeds CLEAR_LINE) with 0%nat.
  change (line_feeds NL) with 1%nat. lia.
Qed.

(** What [render] writes for a running display, byte by byte, and how many
    lines that is. *)
Lemma render_write (env : Env) (st : State) :
  isActive st = true ->
  let a := display (termWidth env) (buildActivityLine st) in
  let s := display (termWidth env) (buildStatsLine env st) in
  let w := (if hasRenderedOnce st then [27; 91; 51; 65; 13] else [])
             ++ [27; 91; 75; 10; 27; 91; 75] ++ a
             ++ [10; 27; 91; 75] ++ s ++ [10; 27; 91; 75] in
  snd (render env st) = [w]
  /\ line_feeds w = (3 + line_feeds a + line_feeds s)%nat.
Proof.
  intros Hact a s w. split.
  - rewrite render_active by exact Hact. reflexivity.
  - subst w. rewrite line_feeds_app.
    change ([27; 91; 75; 10; 27; 91; 75] ++ a ++ [10; 27; 91; 75] ++ s
              ++ [10; 27; 91; 75]) with (frame a s).
    rewrite frame_line_feeds. now destruct (hasRenderedOnce st).
Qed.

(** The bytes of a session, whatever is shown: the first write, made by
    [start], is the frame, each of its lines behind a clear-line sequence,
    with nothing in front; every later write, one per event or tick, is the
    cursor movement [\x1b[3A\r] followed by a frame.  Every write ends with
    a line feed and the clear-line sequence of the last, empty line. *)
Theorem render_protocol (env : Env) (m : option Model) (level : jsstring)
    (st0 : State) (calls : list (Env * Call)) :
  forallb is_update calls = true ->
  exists a0 s0 later,
    snd (run ((env, call_start m level) :: calls) st0)
    = ([27; 91; 75; 10; 27; 91; 75] ++ a0 ++ [10; 27; 91; 75] ++ s0
         ++ [10; 27; 91; 75]) :: later
    /\ a0 = display (termWidth env)
              (buildActivityLine (fst (start env m level st0)))
    /\ s0 = display (termWidth env)
              (buildStatsLine env (fst (start env m level st0)))
    /\ length later = length calls
    /\ Forall (fun w => exists a s,
                   w = [27; 91; 51; 65; 13] ++ [27; 91; 75; 10; 27; 91; 75]
                         ++ a ++ [10; 27; 91; 75] ++ s ++ [10; 27; 91; 75]
                   /\ line_feeds w
                      = (3 + line_feeds a + line_feeds s)%nat) later.
Proof.
  intros Hall.
  destruct (start_state env m level st0) as (st1 & Hstart & Ha & _).
  cbn [run step fst snd]. rewrite Hstart.
  destruct (run_updates_active calls (set_hasRenderedOnce true st1) Hall Ha
              eq_refl) as (Hlen & Hframes & _).
  destruct (run calls (set_hasRenderedOnce true st1)) as [st2 out2].
  cbn [fst snd] in *.
  exists (display (termWidth env) (buildActivityLine st1)),
         (display (termWidth env) (buildStatsLine env st1)), out2.
  repeat split; try assumption.
  eapply Forall_impl; [|exact Hframes].
  intros w (a & s & ->). exists a, s. split; [reflexivity|].
  rewrite line_feeds_app, frame_line_feeds. reflexivity.
Qed.

(** ** Usage *)

Lemma jseq_refl (a : jsstring) : jseq a a = true.
Proof.
  induction a as [|x a IH]; simpl; [reflexivity|]. now rewrite Z.eqb_refl.
Qed.

Lemma completes_completed (c : Env * Call) :
  completes c = match completed c with Some _ => true | None => false end.
Proof.
  unfold completes, completed.
  destruct (snd c) as [m level|[msg|msg|msg| | |]| |]; try reflexivity.
  now destruct (jseq (role msg) ASSISTANT).
Qed.





(** What [start] does: the session fields are set, the first frame is
    written, and the usage totals are the ones of the state it was given. *)
Lemma start_keeps_usage (env : Env) (m : option Model) (level : jsstring)
    (st : State) :
  usageTotals (fst (start env m level st)) = usageTotals st
  /\ isActive (fst (start env m level st)) = true
  /\ startTime (fst (start env m level st)) = now env
  /\ spinnerInterval (fst (start env m level st)) = Some SPINNER_INTERVAL_MS
  /\ hasReceivedStats (fst (start env m level st)) = false
  /\ tokens (context (fst (start env m level st))) = 0
  /\ length (snd (start env m level st)) = 1%nat.
Proof.
  destruct (start_state env m level st)
    as (st1 & Hstart & Ha & Ht & Hi & Hh & Hc & _ & _ & _ & Hu).
  rewrite Hstart. cbn [fst snd]. cbn. rewrite Hc. repeat split; assumption.
Qed.

(** ** The stats line before the first completed message *)

Lemma substring_refl (t : jsstring) : substring t t.
Proof. exists [], []. now rewrite app_nil_r. Qed.

Lemma substring_trans (a b c : jsstring) :
  substring a b -> substring b c -> substring a c.
Proof.
  intros (l1 & r1 & ->) (l2 & r2 & ->). exists (l2 ++ l1), (r1 ++ r2).
  now rewrite <- !app_assoc.
Qed.

Lemma substring_app_l (t s p : jsstring) : substring t s -> substring t (p ++ s).
Proof.
  intros (l & r & ->). exists (p ++ l), r. now rewrite <- app_assoc.
Qed.

Lemma substring_app_r (t s p : jsstring) : substring t s -> substring t (s ++ p).
Proof.
  intros (l & r & ->). exists l, (r ++ p). now rewrite <- !app_assoc.
Qed.

(** The stats line is built from the fields of [same_stats_line] and the
    clock. *)
Lemma buildStatsLine_same (env : Env) (st st' : State) :
  same_stats_line st st' -> buildStatsLine env st' = buildStatsLine env st.
Proof.
  intros (Hu & Hk & Hw & Hh & Hm & Hl & Ht).
  unfold buildStatsLine, statsParts, usageParts, contextParts, modelParts,
    formatElapsedTime.
  now rewrite Hu, Hk, Hw, Hh, Hm, Hl, Ht.
Qed.

(** Joining the segments of a state without statistics gives
    [placeholderStatsText]. *)
Lemma buildStatsLine_placeholder (env : Env) (st : State) :
  hasReceivedStats st = false ->
  window (context st)
  = match model st with Some md => contextWindow md | None => 0 end ->
  buildStatsLine env st
  = theme_fg dim
      (placeholderStatsText (model st) (thinkingLevel st)
         (formatElapsedTime env st)).
Proof.
  intros Hh Hw.
  unfold buildStatsLine, statsParts, usageParts, contextParts, modelParts,
    placeholderStatsText, placeholderContextText, modelText.
  rewrite Hh, Hw. f_equal.
  destruct (model st) as [md|]; [|reflexivity].
  destruct (contextWindow md >? 0);
    destruct (reasoning md && negb (jseq (thinkingLevel st) OFF));
    cbn; rewrite <- ?app_assoc; reflexivity.
Qed.

(** Before the first completed message every write shows the stats line of
    the state the updates began in, at the time of the write. *)
Lemma run_updates_stats_lines (calls : list (Env * Call)) (ref st : State) :
  forallb is_update calls = true ->
  forallb (fun c => negb (completes c)) calls = true ->
  isActive st = true ->
  hasRenderedOnce st = true ->
  same_stats_line ref st ->
  Forall2 (fun c wr =>
             exists a,
               wr = MOVE_UP
                      ++ frame a (display (termWidth (fst c))
                                    (buildStatsLine (fst c) ref)))
          calls (snd (run calls st)).
Proof.
  revert st. induction calls as [|c calls IH]; intros st Hall Hnone Hact Hr Hsame.
  - constructor.
  - simpl in Hall, Hnone.
    apply andb_prop in Hall as [Hc Hall].
    apply andb_prop in Hnone as [Hn Hnone]. apply negb_true_iff in Hn.
    destruct (step_update_active c st Hc Hact)
      as (st1 & Hstep & Ha1 & Ht1 & Hm1 & Hl1 & Hw1 & Hs1).
    destruct (Hs1 Hn) as (Hu1 & Hk1 & Hh1).
    destruct Hsame as (Su & Sk & Sw & Sh & Sm & Sl & St).
    assert (Hsame1 : same_stats_line ref st1).
    { unfold same_stats_line.
      rewrite Hu1, Hk1, Hw1, Hh1, Hm1, Hl1, Ht1. repeat split; assumption. }
    cbn [run]. rewrite Hstep, Hr.
    specialize (IH (set_hasRenderedOnce true st1) Hall Hnone Ha1 eq_refl Hsame1).
    destruct (run calls (set_hasRenderedOnce true st1)) as [st2 out2].
    cbn [fst snd app] in *. constructor; [|exact IH].
    exists (display (termWidth (fst c)) (buildActivityLine st1)).
    unfold frame_of. now rewrite (buildStatsLine_same (fst c) ref st1 Hsame1).
Qed.

(** A line that is not wider than the terminal is written as it is. *)
Lemma frame_shows_stats (pre a line : jsstring) (width : Z) :
  visibleWidth line <= width ->
  substring line (pre ++ frame a (display width line)).
Proof.
  intros Hfit. unfold display.
  replace (visibleWidth line >? width) with false
    by (symmetry; rewrite Z.gtb_ltb; apply Z.ltb_ge; exact Hfit).
  exists (pre ++ CLEAR_LINE ++ NL ++ CLEAR_LINE ++ a ++ NL ++ CLEAR_LINE),
         (NL ++ CLEAR_LINE).
  unfold frame. now rewrite <- !app_assoc.
Qed.

(** C8: in a session, as long as no assistant message has completed, the
    segments of the stats line are the five placeholders, then the context
    placeholder with the formatted window exactly when the window of the
    model given to [start] is positive, then the model and elapsed time
    segments.  The stats line is the text [placeholderStatsText] in the dim
    colour: the segments with [" | "] between them.  Every write of the
    session, that of [start] included, has on its third line this stats
    line as [render] shows it at the width of the terminal, and the whole
    of it when it is not wider than the terminal.  When the theme keeps the
    text it colours, the stats line contains each of the five placeholder
    tokens, and [---/] followed by the formatted window when the window is
    positive; when the window is not positive, the model segment follows
    [$---] directly. *)
Theorem placeholder_stats (env : Env) (m : option Model) (level : jsstring)
    (st0 : State) (calls : list (Env * Call)) (env' : Env) :
  forallb is_update calls = true ->
  forallb (fun c => negb (completes c)) calls = true ->
  let session := (env, call_start m level) :: calls in
  let st := fst (run session st0) in
  let w := match m with Some md => contextWindow md | None => 0 end in
  let line (e : Env) :=
    theme_fg dim
      (placeholderStatsText m level
         (formatElapsedTime e (fst (start env m level st0)))) in
  statsParts env' st
  = [UP_ARROW ++ js "---"; DOWN_ARROW ++ js "---";
     js "R---"; js "W---"; js "$---"]
      ++ (if w >? 0 then [js "---/" ++ formatTokens w] else [])
      ++ modelParts st ++ [formatElapsedTime env' st]
  /\ buildStatsLine env' st = line env'
  /\ Forall2 (fun c wr =>
                exists pre a,
                  wr = pre ++ [27; 91; 75; 10; 27; 91; 75] ++ a
                         ++ [10; 27; 91; 75]
                         ++ display (termWidth (fst c)) (line (fst c))
                         ++ [10; 27; 91; 75]
                  /\ (visibleWidth (line (fst c)) <= termWidth (fst c) ->
                      substring (line (fst c)) wr))
             session (snd (run session st0))
  /\ ((forall c t, substring t (theme_fg c t)) ->
      forall e,
        substring ([8593] ++ js "---") (line e)
        /\ substring ([8595] ++ js "---") (line e)
        /\ substring (js "R---") (line e)
        /\ substring (js "W---") (line e)
        /\ substring (js "$---") (line e)
        /\ (w > 0 -> substring (js "---/" ++ formatTokens w) (line e)))
  /\ (w <= 0 ->
      forall e,
        line e
        = theme_fg dim
            ([8593] ++ js "--- | " ++ [8595] ++ js "--- | R--- | W--- | $---"
               ++ modelText m level ++ js " | "
               ++ formatElapsedTime e (fst (start env m level st0)))).
Proof.
  intros Hall Hnone session st w line.
  destruct (start_state env m level st0)
    as (st1 & Hstart & Ha & Ht & _ & Hh & Hc & Hm & Hl & _).
  assert (Hline : forall e s,
             same_stats_line (set_hasRenderedOnce true st1) s ->
             buildStatsLine e s = line e).
  { intros e s Hs. rewrite (buildStatsLine_same e _ s Hs).
    rewrite buildStatsLine_placeholder.
    - unfold line. rewrite Hstart. cbn [fst]. cbn. now rewrite Hm, Hl.
    - exact Hh.
    - cbn. rewrite Hc, Hm. reflexivity. }
  assert (Hst1 : same_stats_line (set_hasRenderedOnce true st1) st1)
    by (repeat split).
  destruct (run_updates_active calls (set_hasRenderedOnce true st1) Hall Ha
              eq_refl) as (_ & _ & _ & Ht2 & Hm2 & Hl2 & Hw & Hs).
  destruct (Hs Hnone) as (Hu2 & Hk2 & Hh2).
  pose proof (run_updates_stats_lines calls (set_hasRenderedOnce true st1)
                (set_hasRenderedOnce true st1) Hall Hnone Ha eq_refl
                ltac:(repeat split)) as Hwrites.
  subst st session. cbn [run step fst snd]. rewrite Hstart.
  destruct (run calls (set_hasRenderedOnce true st1)) as [st2 out2].
  cbn [fst snd app] in *.
  split; [|split; [|split; [|split]]].
  - cbn in Hw, Hh2. rewrite Hc in Hw. cbn in Hw.
    unfold statsParts, usageParts, contextParts. rewrite Hh2, Hh, Hw.
    destruct (_ >? 0); reflexivity.
  - apply Hline. repeat split; assumption.
  - constructor.
    + exists [], (display (termWidth env) (buildActivityLine st1)).
      unfold frame_of. rewrite (Hline env st1 Hst1). split; [reflexivity|].
      intros Hfit.
      apply (frame_shows_stats [] (display (termWidth env) (buildActivityLine st1))
               _ _ Hfit).
    + eapply Forall2_impl; [|exact Hwrites].
      intros c wr (a & ->). exists MOVE_UP, a.
      rewrite (Hline (fst c) _ ltac:(repeat split)).
      split; [reflexivity|]. intros Hfit.
      apply (frame_shows_stats MOVE_UP a _ _ Hfit).
  - intros Hwraps e. unfold line.
    assert (Hin : forall tok,
               substring tok
                 (placeholderStatsText m level
                    (formatElapsedTime e (fst (start env m level st0)))) ->
               substring tok
                 (theme_fg dim
                    (placeholderStatsText m level
                       (formatElapsedTime e (fst (start env m level st0))))))
      by (intros tok H; exact (substring_trans _ _ _ H (Hwraps _ _))).
    unfold placeholderStatsText in *.
    repeat split; try apply Hin.
    + now exists [], (js " | " ++ [8595] ++ js "--- | R--- | W--- | $---"
                        ++ placeholderContextText m ++ modelText m level
                        ++ js " | "
                        ++ formatElapsedTime e (fst (start env m level st0))).
    + now exists ([8593] ++ js "--- | "),
                 (js " | R--- | W--- | $---"
                    ++ placeholderContextText m ++ modelText m level
                    ++ js " | "
                    ++ formatElapsedTime e (fst (start env m level st0))).
    + now exists ([8593] ++ js "--- | " ++ [8595] ++ js "--- | "),
                 (js " | W--- | $---"
                    ++ placeholderContextText m ++ modelText m level
                    ++ js " | "
                    ++ formatElapsedTime e (fst (start env m level st0))).
    + now exists ([8593] ++ js "--- | " ++ [8595] ++ js "--- | R--- | "),
                 (js " | $---"
                    ++ placeholderContextText m ++ modelText m level
                    ++ js " | "
                    ++ formatElapsedTime e (fst (start env m level st0))).
    + now exists ([8593] ++ js "--- | " ++ [8595] ++ js "--- | R--- | W--- | "),
                 (placeholderContextText m ++ modelText m level
                    ++ js " | "
                    ++ formatElapsedTime e (fst (start env m level st0))).
    + intros Hpos. apply Hin.
      exists ([8593] ++ js "--- | " ++ [8595] ++ js "--- | R--- | W--- | $---"
                ++ js " | "),
             (modelText m level ++ js " | "
                ++ formatElapsedTime e (fst (start env m level st0))).
      unfold placeholderContextText, w in *. destruct m as [md|]; [|lia].
      replace (contextWindow md >? 0) with true
        by (symmetry; rewrite Z.gtb_ltb; apply Z.ltb_lt; lia).
      cbn. now rewrite <- ?app_assoc.
  - intros Hle e. unfold line, placeholderStatsText, placeholderContextText.
    rewrite ?Hstart. cbn [fst]. subst w. clear - Hle.
    destruct m as [md|]; [|reflexivity].
    replace (contextWindow md >? 0) with false; [reflexivity|].
    symmetry. rewrite Z.gtb_ltb. apply Z.ltb_ge. exact Hle.
Qed.

(** ** Activity *)

Lemma trimStart_all_whitespace (s : jsstring) :
  trimStart s = [] <-> forallb is_js_whitespace s = true.
Proof.
  induction s as [|c t IH]; simpl; [now split|].
  destruct (is_js_whitespace c); simpl; [exact IH|].
  split; discriminate.
Qed.

Lemma trim_all_whitespace (s : jsstring) :
  trim s = [] <-> forallb is_js_whitespace s = true.
Proof.
  unfold trim. rewrite <- trimStart_all_whitespace. split.
  - intros H. apply (f_equal (@rev Z)) in H. rewrite rev_involutive in H.
    simpl in H. apply trimStart_all_whitespace in H.
    rewrite forallb_forall in H.
    destruct (trimStart s) as [|c r] eqn:E; [reflexivity|exfalso].
    assert (is_js_whitespace c = true) as Hc
      by (apply H, in_rev; rewrite rev_involutive; now left).
    destruct s as [|x s']; [discriminate|].
    clear H. revert x E. induction s' as [|y s' IH]; intros x E; simpl in E.
    + destruct (is_js_whitespace x) eqn:Hx; [discriminate|]. congruence.
    + destruct (is_js_whitespace x) eqn:Hx; [|congruence].
      apply (IH y). exact E.
  - intros ->. reflexivity.
Qed.

Lemma collapse_spaces_forallb (P : Z -> bool) (s : jsstring) :
  forallb P s = true -> forallb P (collapse_spaces s) = true.
Proof.
  induction s as [|c t IH]; [reflexivity|].
  intros H. simpl in H. apply andb_prop in H as [Hc Ht].
  cbn [collapse_spaces]. destruct t as [|d t']; [simpl; now rewrite Hc|].
  destruct ((c =? SPACE) && (d =? SPACE)); [now apply IH|].
  cbn [forallb]. rewrite Hc. now apply IH.
Qed.

(** A text that trims to nothing normalizes to nothing. *)
Lemma normalizeText_blank (s : jsstring) : trim s = [] -> normalizeText s = [].
Proof.
  rewrite trim_all_whitespace. intros H. unfold normalizeText.
  apply trim_all_whitespace, collapse_spaces_forallb.
  rewrite forallb_forall in *. intros c Hc.
  apply in_map_iff in Hc as (x & <- & Hx).
  destruct ((x =? 13) || (x =? 10) || (x =? 9)); [reflexivity|now apply H].
Qed.

Lemma last_block_rev (blocks : list Content) :
  last_block blocks = hd_error (rev blocks).
Proof.
  unfold last_block. destruct (rev blocks) as [|x r] eqn:E.
  - apply (f_equal (@rev Content)) in E. rewrite rev_involutive in E.
    now subst.
  - apply (f_equal (@rev Content)) in E. rewrite rev_involutive in E.
    subst blocks. simpl. rewrite length_app, nth_error_app2; simpl.
    + now replace (length (rev r) + 1 - 1 - length (rev r))%nat with 0%nat by lia.
    + lia.
Qed.

Lemma guarded_last_block (blocks : list Content) :
  (if 0 <? len blocks then last_block blocks else None)
  = hd_error (rev blocks).
Proof.
  destruct blocks as [|b blocks]; [reflexivity|].
  replace (0 <? len (b :: blocks)) with true
    by (symmetry; apply Z.ltb_lt; unfold len; simpl; lia).
  apply last_block_rev.
Qed.

Lemma hd_rev_filter (f : Content -> bool) (blocks : list Content) (b : Content)
    (r : list Content) :
  rev (filter f blocks) = b :: r -> f b = true.
Proof.
  intros E. assert (In b (filter f blocks)) as H
      by (apply in_rev; rewrite E; now left).
  now apply filter_In in H.
Qed.

Lemma updateFromAssistantMessage_amended (env : Env) (msg : Message)
    (st : State) :
  activityState (updateFromAssistantMessage env msg st)
  = amended_activity env (content msg) (activityState st).
Proof.
  unfold updateFromAssistantMessage, amended_activity.
  rewrite !guarded_last_block.
  destruct (rev (filter is_toolCall (content msg))) as [|b1 r1] eqn:E1.
  2: { apply hd_rev_filter in E1 as H1.
       destruct b1; try discriminate. reflexivity. }
  simpl.
  destruct (rev (filter is_thinking (content msg))) as [|b2 r2] eqn:E2.
  2: { apply hd_rev_filter in E2 as H2.
       destruct b2 as [| t |]; try discriminate. simpl.
       destruct t as [t|]; [|reflexivity]. simpl.
       destruct (trim t) eqn:Et; [|reflexivity].
       now rewrite (normalizeText_blank t Et). }
  simpl.
  destruct (rev (filter is_text (content msg))) as [|b3 r3] eqn:E3;
    [reflexivity|].
  apply hd_rev_filter in E3 as H3.
  destruct b3 as [| | t]; try discriminate. simpl.
  destruct t; reflexivity.
Qed.

(** C7, amended: the activity after a snapshot is that of the last tool
    call (its name and formatted arguments) if the content has a tool call;
    else that of the last reasoning block (its normalized text) if it has
    one; else that of the last text block (its normalized text) if it has
    one and the text of the last one is not empty; else the activity
    before.  This is what [updateFromAssistantMessage] does to any state,
    and what [handleEvent] does with a [message_update] of an assistant
    message while the display is active. *)
Theorem message_update_activity (env : Env) (msg : Message) (st : State) :
  activityState (updateFromAssistantMessage env msg st)
  = amended_activity env (content msg) (activityState st)
  /\ (isActive st = true ->
      role msg = ASSISTANT ->
      activityState (fst (handleEvent env (message_update msg) st))
      = amended_activity env (content msg) (activityState st)).
Proof.
  split; [apply updateFromAssistantMessage_amended|].
  intros Hact Hrole. unfold handleEvent. rewrite Hact. cbn [negb applyEvent].
  rewrite Hrole, jseq_refl.
  destruct (updateFromAssistantMessage_same env msg st) as [(Ha & _) _].
  rewrite render_active by (now rewrite Ha).
  cbn [fst]. rewrite <- updateFromAssistantMessage_amended. reflexivity.
Qed.

End Facts.


(** ** The properties at work, on the decimal host *)

Import Examples.

#[local] Existing Instance DecimalHost.host.

(** C5 at a second session on the same instance: [start] sets the session
    fields again but not the usage totals.  After the second [start] the
    input total is still the 100 of the first session, and the first
    message of the second session, with 200 input tokens, is shown as
    [300]. *)
Theorem second_session_carries_usage :
  let st := fst (run two_sessions (new 0)) in
  isActive st = true
  /\ hasReceivedStats st = false
  /\ tokens (context st) = 0
  /\ input (usageTotals st) = 100
  /\ output (usageTotals st) = 50
  /\ let st' :=
       fst (handleEvent env1
              (message_end (assistant_message [] 200 100 0 0 (2 # 100))) st) in
     input (usageTotals st') = 300
     /\ hd [] (usageParts st') = UP_ARROW ++ js "300".
Proof. repeat split; vm_compute; reflexivity. Qed.

(** C7, as stated, fails at a snapshot whose only block is an empty text
    block (what a stream shows when text starts): the activity stays
    [Starting...], the wording asks for an empty text activity. *)
Lemma empty_text_keeps_activity :
  let st := fst (start env0 (Some test_model) OFF (new 0)) in
  let msg := assistant_message [TextContent []] 0 0 0 0 0%Q in
  activityState st = System (js "Starting...")
  /\ activityState (updateFromAssistantMessage env0 msg st)
     = System (js "Starting...")
  /\ spec_activity env0 (content msg) (activityState st) = Text []
  /\ activityState (updateFromAssistantMessage env0 msg st)
     <> spec_activity env0 (content msg) (activityState st).
Proof. repeat split; vm_compute; discriminate. Qed.

Lemma message_update_activity_witness :
  let st := fst (start env0 (Some test_model) OFF (new 0)) in
  isActive st = true
  /\ role grep_snapshot = ASSISTANT
  /\ activityState (fst (handleEvent env0 (message_update grep_snapshot) st))
     = Tool (js "grep") (js "/TODO/ in ~/src").
Proof.
  split; [reflexivity|]. split; [reflexivity|].
  destruct (message_update_activity (host := DecimalHost.host) env0
              grep_snapshot (fst (start env0 (Some test_model) OFF (new 0))))
    as [_ H].
  rewrite H; [vm_compute; reflexivity | reflexivity | reflexivity].
Defined.

(** C4: a [read] call whose path holds a line feed is shown as it is, so
    the write that shows it has four line feeds where the write of [start]
    has three: it covers five lines, not four.  The next write still begins
    with [\x1b[3A\r], which moves the cursor up by three lines only.  The
    same text as the command of a [bash] call is shown on one line, and the
    write has three line feeds. *)
Theorem path_line_feed_breaks_frame :
  let writes := snd (run line_feed_session (new 0)) in
  let stats :=
    [27; 91; 50; 109; 8593] ++ js "--- | " ++ [8595]
      ++ js "--- | R--- | W--- | $--- | ---/200k | test-model | 0s"
      ++ [27; 91; 51; 57; 109] in
  length writes = 3%nat
  /\ nth 0 writes []
     = [27; 91; 75; 10; 27; 91; 75]
         ++ [27; 91; 51; 54; 109; 10251; 27; 91; 51; 57; 109]
         ++ js " Starting..." ++ [10; 27; 91; 75] ++ stats
         ++ [10; 27; 91; 75]
  /\ nth 1 writes []
     = [27; 91; 51; 65; 13] ++ [27; 91; 75; 10; 27; 91; 75]
         ++ [27; 91; 51; 54; 109; 10251; 27; 91; 51; 57; 109] ++ js " "
         ++ [27; 91; 51; 54; 109] ++ js "[read]" ++ [27; 91; 51; 57; 109]
         ++ js " a" ++ [10] ++ js "b" ++ [10; 27; 91; 75] ++ stats
         ++ [10; 27; 91; 75]
  /\ line_feeds (nth 0 writes []) = 3%nat
  /\ line_feeds (nth 1 writes []) = 4%nat
  /\ firstn 5 (nth 2 writes []) = [27; 91; 51; 65; 13]
  /\ nth 1 (snd (run bash_session (new 0))) []
     = [27; 91; 51; 65; 13] ++ [27; 91; 75; 10; 27; 91; 75]
         ++ [27; 91; 51; 54; 109; 10251; 27; 91; 51; 57; 109] ++ js " "
         ++ [27; 91; 51; 54; 109] ++ js "[bash]" ++ [27; 91; 51; 57; 109]
         ++ js " a b" ++ [10; 27; 91; 75] ++ stats ++ [10; 27; 91; 75]
  /\ line_feeds (nth 1 (snd (run bash_session (new 0))) []) = 3%nat.
Proof. vm_compute. repeat split; reflexivity. Qed.

Lemma render_protocol_witness :
  forallb is_update session_updates = true
  /\ exists a0 s0 later,
       snd (run ((env0, call_start (Some test_model) OFF) :: session_updates)
              (new 0))
       = ([27; 91; 75; 10; 27; 91; 75] ++ a0 ++ [10; 27; 91; 75] ++ s0
            ++ [10; 27; 91; 75]) :: later
       /\ a0 = display (termWidth env0)
                 (buildActivityLine
                    (fst (start env0 (Some test_model) OFF (new 0))))
       /\ s0 = display (termWidth env0)
                 (buildStatsLine env0
                    (fst (start env0 (Some test_model) OFF (new 0))))
       /\ length later = length session_updates
       /\ Forall (fun w => exists a s,
                      w = [27; 91; 51; 65; 13] ++ [27; 91; 75; 10; 27; 91; 75]
                            ++ a ++ [10; 27; 91; 75] ++ s ++ [10; 27; 91; 75]
                      /\ line_feeds w
                         = (3 + line_feeds a + line_feeds s)%nat) later.
Proof.
  split; [reflexivity|].
  apply (render_protocol (host := DecimalHost.host)). reflexivity.
Defined.

Lemma stopped_display_is_silent_witness :
  let st := fst (start env0 (Some test_model) OFF (new 0)) in
  forallb is_update session_updates = true
  /\ snd (run session_updates (fst (stop st))) = []
  /\ activityState (fst (run session_updates (fst (stop st))))
     = System (js "Starting...").
Proof.
  split; [reflexivity|].
  destruct (stopped_display_is_silent (host := DecimalHost.host)
              (fst (start env0 (Some test_model) OFF (new 0))))
    as (_ & _ & H).
  destruct (H session_updates eq_refl) as (Hout & Hact & _).
  split; [exact Hout|]. rewrite Hact. reflexivity.
Defined.

Lemma handleEvent_renders_once_witness :
  let st := fst (start env0 (Some test_model) OFF (new 0)) in
  isActive st = true
  /\ ignored (message_start user_message) = true
  /\ length (snd (handleEvent env1 (message_start user_message) st)) = 1%nat
  /\ fst (handleEvent env1 (message_start user_message) st) = st.
Proof.
  split; [reflexivity|]. split; [reflexivity|].
  destruct (handleEvent_renders_once (host := DecimalHost.host) env1
              (message_start user_message)
              (fst (start env0 (Some test_model) OFF (new 0))) eq_refl)
    as (Hout & _ & H).
  destruct (H eq_refl) as (Hst & _).
  split; [now rewrite Hout|]. rewrite Hst. reflexivity.
Defined.


Lemma DecimalHost_fg_keeps_text (c : ThemeColor) (t : jsstring) :
  substring t (theme_fg c t).
Proof.
  exists ([ESC; LBRACKET] ++ DecimalHost.colour_code c ++ [LOWER_M]),
         ([ESC; LBRACKET] ++ js "39" ++ [LOWER_M]).
  cbn [theme_fg DecimalHost.host]. unfold DecimalHost.fg.
  now rewrite <- !app_assoc.
Qed.

Lemma placeholder_stats_witness :
  let session :=
    (env0, call_start (Some test_model) OFF) :: session_updates in
  let st := fst (run session (new 0)) in
  forallb is_update session_updates = true
  /\ forallb (fun c => negb (completes c)) session_updates = true
  /\ statsParts env1 st
     = [UP_ARROW ++ js "---"; DOWN_ARROW ++ js "---";
        js "R---"; js "W---"; js "$---";
        js "---/200k"; js "test-model"; js "5s"]
  /\ buildStatsLine env1 st
     = [27; 91; 50; 109; 8593] ++ js "--- | " ++ [8595]
         ++ js "--- | R--- | W--- | $--- | ---/200k | test-model | 5s"
         ++ [27; 91; 51; 57; 109]
  /\ substring (js "W---") (buildStatsLine env1 st)
  /\ substring (js "---/200k") (buildStatsLine env1 st).
Proof.
  intros session st.
  split; [reflexivity|]. split; [reflexivity|].
  destruct (placeholder_stats (host := DecimalHost.host) env0
              (Some test_model) OFF (new 0) session_updates env1
              eq_refl eq_refl) as (H1 & H2 & _ & H4 & _).
  destruct (H4 DecimalHost_fg_keeps_text env1) as (_ & _ & _ & Hw & _ & Hc).
  fold session in H1, H2. fold st in H1, H2.
  split; [rewrite H1; vm_compute; reflexivity|].
  split; [rewrite H2; vm_compute; reflexivity|].
  split; [rewrite H2; exact Hw|].
  rewrite H2. exact (Hc eq_refl).
Defined.

(** On a terminal of twenty columns the stats line of the first write is
    cut after [R--]: what is written is the stats line only as far as the
    terminal is wide. *)
Example narrow_terminal_cuts_stats :
  snd (start narrow_env (Some test_model) OFF (new 0))
  = [[27; 91; 75; 10; 27; 91; 75]
       ++ [27; 91; 51; 54; 109; 10251; 27; 91; 51; 57; 109]
       ++ js " Starting..." ++ [10; 27; 91; 75]
       ++ [27; 91; 50; 109; 8593] ++ js "--- | " ++ [8595]
       ++ js "--- | R--" ++ [27; 91; 48; 109] ++ js "..."
       ++ [10; 27; 91; 75]].
Proof. vm_compute. reflexivity. Qed.

End PrintModeProgressFacts.

(** * Further properties of the text utilities *)

Module AnsiTextMore.

Import AnsiText AnsiTextFacts PrintModeProgress.

(** ** Text without escape characters *)

Lemma regex_exec_no_esc (s : jsstring) :
  Forall (fun c => c <> ESC) s -> regex_exec s = None.
Proof.
  induction 1 as [|c t Hc Ht IH]; [reflexivity|].
  rewrite regex_exec_cons, IH.
  replace (match_ansi (c :: t)) with (@None (jsstring * jsstring));
    [reflexivity|].
  unfold match_ansi. destruct t as [|c1 t']; [reflexivity|].
  now replace (c =? ESC) with false by (symmetry; apply Z.eqb_neq; exact Hc).
Qed.

(** X1: a string that holds no escape character is left as it is by
    [stripAnsi], and its visible width is its length. *)
Theorem stripAnsi_plain (s : jsstring) :
  Forall (fun c => c <> ESC) s ->
  stripAnsi s = s /\ visibleWidth s = len s.
Proof.
  intros H. apply regex_exec_no_esc in H.
  unfold visibleWidth. rewrite stripAnsi_unfold, H. now split.
Qed.

Lemma stripAnsi_plain_witness :
  Forall (fun c => c <> ESC) (js "npm run check")
  /\ stripAnsi (js "npm run check") = js "npm run check"
  /\ visibleWidth (js "npm run check") = 13.
Proof.
  assert (Forall (fun c => c <> ESC) (js "npm run check")) as H
      by (repeat constructor; discriminate).
  split; [exact H|].
  destruct (stripAnsi_plain (js "npm run check") H) as [E W].
  split; [exact E|]. rewrite W. reflexivity.
Defined.

(** ** Where the matches are *)

Lemma matchAll_from_located (s pre : jsstring) (i : Z) (m : jsstring) :
  In (i, m) (matchAll_from (len pre) s) ->
  slice (pre ++ s) i (i + len m) = m
  /\ match_ansi m = Some (m, [])
  /\ len pre <= i
  /\ i + len m <= len (pre ++ s).
Proof.
  revert pre. induction s as [s IH] using jsstring_length_ind. intros pre.
  rewrite matchAll_from_unfold.
  destruct (regex_exec s) as [[[b m0] r]|] eqn:E; [|contradiction].
  pose proof (regex_exec_shorter _ _ _ _ E) as Hr.
  pose proof E as E0. apply regex_exec_app in E as [-> Hm].
  intros [Hin|Hin].
  - injection Hin as <- <-.
    replace (len pre + len b) with (len (pre ++ b))
      by (unfold len; rewrite length_app; lia).
    replace (pre ++ b ++ m0 ++ r) with ((pre ++ b) ++ m0 ++ r)
      by (now rewrite <- app_assoc).
    split; [apply slice_middle|]. split.
    + clear IH Hr. revert b E0. generalize (m0 ++ r) at 1.
      intros tail b. revert tail.
      induction b as [|c b IHb]; intros tail E0.
      * simpl in E0. destruct tail as [|c t]; [discriminate|].
        rewrite regex_exec_cons in E0.
        destruct (match_ansi (c :: t)) as [[m1 r1]|] eqn:E1.
        -- injection E0 as <- <-. eapply match_ansi_self; eassumption.
        -- destruct (regex_exec t) as [[[b' m'] r']|]; discriminate.
      * apply (IHb tail). rewrite <- app_comm_cons in E0.
        rewrite regex_exec_cons in E0.
        destruct (match_ansi (c :: b ++ tail)) as [[m1 r1]|]; [discriminate|].
        destruct (regex_exec (b ++ tail)) as [[[b' m'] r']|]; [|discriminate].
        now injection E0 as <- <- <-.
    + unfold len. rewrite !length_app. lia.
  - replace (len pre + len b + len m0) with (len (pre ++ b ++ m0)) in Hin
      by (unfold len; rewrite !length_app; lia).
    destruct (IH r Hr _ Hin) as (Hs & Hself & Hlo & Hhi).
    replace (pre ++ b ++ m0 ++ r) with ((pre ++ b ++ m0) ++ r)
      by (now rewrite <- !app_assoc).
    repeat split; try assumption.
    unfold len in *. rewrite !length_app in Hlo. lia.
Qed.

(** X2: every match [matchAll] reports is a style sequence, and it stands
    in the text at the index reported with it. *)
Theorem matchAll_located (s : jsstring) (i : Z) (m : jsstring) :
  In (i, m) (matchAll s) ->
  slice s i (i + len m) = m
  /\ match_ansi m = Some (m, [])
  /\ 0 <= i
  /\ i + len m <= len s.
Proof.
  intros H. apply (matchAll_from_located s [] i m H).
Qed.

Lemma matchAll_located_witness :
  In (18, RESET) (matchAll (Examples.styled_text ++ RESET))
  /\ slice (Examples.styled_text ++ RESET) 18 22 = RESET.
Proof.
  assert (In (18, RESET) (matchAll (Examples.styled_text ++ RESET))) as H
      by (vm_compute; auto).
  split; [exact H|].
  exact (proj1 (matchAll_located _ _ _ H)).
Defined.



(** ** Truncation of plain text *)

(** X4: a text without escape characters and surrogate pairs that is too
    wide is cut to its first [maxWidth - 3] characters, followed by the
    style reset and the ellipsis. *)
Theorem truncateToWidth_plain (s : jsstring) (maxWidth : Z) :
  Forall (fun c => c <> ESC) s ->
  no_surrogate_pair s = true ->
  3 < maxWidth < len s ->
  truncateToWidth s maxWidth ELLIPSIS
  = firstn (Z.to_nat (maxWidth - 3)) s ++ RESET ++ ELLIPSIS.
Proof.
  intros Hp Hs Hw. apply regex_exec_no_esc in Hp.
  rewrite truncateToWidth_copied.
  - now rewrite (spec_walk_no_match _ _ Hp).
  - unfold visibleWidth. rewrite stripAnsi_unfold, Hp. lia.
  - change (len ELLIPSIS) with 3. lia.
  - exact Hs.
Qed.

Lemma truncateToWidth_plain_witness :
  truncateToWidth (js "npm run check") 10 ELLIPSIS
  = js "npm run" ++ RESET ++ ELLIPSIS.
Proof.
  rewrite (truncateToWidth_plain (js "npm run check") 10).
  - reflexivity.
  - repeat constructor; discriminate.
  - reflexivity.
  - split; reflexivity.
Defined.

(** X5: for a text without surrogate pairs, truncating what was truncated
    changes nothing. *)
Theorem truncateToWidth_idempotent (s : jsstring) (maxWidth : Z) :
  0 <= maxWidth ->
  no_surrogate_pair s = true ->
  truncateToWidth (truncateToWidth s maxWidth ELLIPSIS) maxWidth ELLIPSIS
  = truncateToWidth s maxWidth ELLIPSIS.
Proof.
  intros H0 Hs. apply truncateToWidth_fits.
  now apply truncateToWidth_width_bound.
Qed.

Lemma truncateToWidth_idempotent_witness :
  truncateToWidth (truncateToWidth Examples.styled_text 6 ELLIPSIS) 6 ELLIPSIS
  = truncateToWidth Examples.styled_text 6 ELLIPSIS.
Proof.
  apply (truncateToWidth_idempotent Examples.styled_text 6).
  - discriminate.
  - reflexivity.
Defined.

(** ** Truncation of any text *)

Lemma concat_codePoints_cons (s : jsstring) :
  concat (codePoints s) = s
  /\ forall c, concat (codePoints (c :: s)) = c :: s.
Proof.
  induction s as [|d t [IH1 IH2]]; [now split|].
  split; [apply IH2|]. intros c.
  change (codePoints (c :: d :: t))
    with (if is_high_surrogate c && is_low_surrogate d
          then [c; d] :: codePoints t
          else [c] :: codePoints (d :: t)).
  destruct (is_high_surrogate c && is_low_surrogate d); simpl.
  - now rewrite IH1.
  - f_equal. apply IH2.
Qed.

(** The code points of a string, put together, are the string. *)
Lemma concat_codePoints (s : jsstring) : concat (codePoints s) = s.
Proof. apply concat_codePoints_cons. Qed.

Lemma codePoints_short_cons (s : jsstring) :
  Forall (fun ch => (length ch <= 2)%nat) (codePoints s)
  /\ forall c, Forall (fun ch => (length ch <= 2)%nat) (codePoints (c :: s)).
Proof.
  induction s as [|d t [IH1 IH2]].
  - split; [constructor|]. intros c. repeat constructor.
  - split; [apply IH2|]. intros c.
    change (codePoints (c :: d :: t))
      with (if is_high_surrogate c && is_low_surrogate d
            then [c; d] :: codePoints t
            else [c] :: codePoints (d :: t)).
    destruct (is_high_surrogate c && is_low_surrogate d);
      constructor; simpl; try lia; [exact IH1 | apply IH2].
Qed.

Lemma concat_firstn_short (k : nat) (l : list jsstring) :
  Forall (fun ch => (length ch <= 2)%nat) l ->
  (length (concat (firstn k l)) <= 2 * Nat.min k (length l))%nat.
Proof.
  intros H. revert k. induction H as [|ch l Hch Hl IH]; intros k.
  - rewrite firstn_nil. simpl. lia.
  - destruct k as [|k]; [simpl; lia|].
    simpl. rewrite length_app. specialize (IH k). lia.
Qed.

(** The inner loop on any characters: it copies the first of them, as many
    as the budget has room for. *)
Lemma copy_visible_chunks (targetWidth : Z) (chars : list jsstring) (vc : Z)
    (res : jsstring) :
  copy_visible targetWidth chars vc res =
  (vc + Z.of_nat (Nat.min (Z.to_nat (targetWidth - vc)) (length chars)),
   res ++ concat (firstn (Z.to_nat (targetWidth - vc)) chars)).
Proof.
  revert vc res. induction chars as [|ch chars IH]; intros vc res; simpl.
  - rewrite Nat.min_0_r, Z.add_0_r, firstn_nil. simpl.
    now rewrite app_nil_r.
  - destruct (vc >=? targetWidth) eqn:Hge.
    + apply Z.geb_le in Hge.
      replace (Z.to_nat (targetWidth - vc)) with 0%nat by lia.
      simpl. now rewrite Z.add_0_r, app_nil_r.
    + rewrite Z.geb_leb in Hge. apply Z.leb_gt in Hge.
      rewrite IH.
      replace (Z.to_nat (targetWidth - vc))
        with (S (Z.to_nat (targetWidth - (vc + 1)))) by lia.
      simpl. rewrite <- app_assoc. f_equal. lia.
Qed.

Lemma match_ansi_prefix_none (a b : jsstring) :
  match_ansi (a ++ b) = None -> match_ansi a = None.
Proof.
  intros H. destruct (match_ansi a) as [[m r]|] eqn:E; [|reflexivity].
  apply (match_ansi_extend _ _ _ b) in E. congruence.
Qed.

Lemma regex_exec_prefix_none (a b : jsstring) :
  regex_exec (a ++ b) = None -> regex_exec a = None.
Proof.
  induction a as [|c a IH]; [reflexivity|].
  rewrite <- app_comm_cons, !regex_exec_cons. intros H.
  destruct (match_ansi (c :: a ++ b)) as [[m r]|] eqn:E; [discriminate|].
  rewrite (match_ansi_prefix_none (c :: a) b E).
  destruct (regex_exec (a ++ b)) as [[[b' m'] r']|]; [discriminate|].
  now rewrite IH.
Qed.

Lemma regex_exec_suffix_none (a b : jsstring) :
  regex_exec (a ++ b) = None -> regex_exec b = None.
Proof.
  induction a as [|c a IH]; [trivial|].
  rewrite <- app_comm_cons, regex_exec_cons. intros H.
  destruct (match_ansi (c :: a ++ b)) as [[m r]|]; [discriminate|].
  destruct (regex_exec (a ++ b)) as [[[b' m'] r']|]; [discriminate|].
  now apply IH.
Qed.

(** No sequence starts in the text in front of the leftmost match. *)
Lemma regex_exec_before_none (s b m r : jsstring) :
  regex_exec s = Some (b, m, r) -> regex_exec b = None.
Proof.
  revert b. induction s as [|c t IH]; intros b; [discriminate|].
  rewrite regex_exec_cons.
  destruct (match_ansi (c :: t)) as [[m' r']|] eqn:E.
  - now intros [= <- <- <-].
  - destruct (regex_exec t) as [[[b' m'] r']|] eqn:Et; [|discriminate].
    intros [= <- -> ->]. rewrite regex_exec_cons, (IH b' eq_refl).
    apply regex_exec_app in Et as [-> _].
    now rewrite (match_ansi_prefix_none (c :: b') (m ++ r) E).
Qed.

Lemma regex_exec_drop_before (b1 b2 t m r : jsstring) :
  regex_exec (b1 ++ t) = Some (b1 ++ b2, m, r) ->
  regex_exec t = Some (b2, m, r).
Proof.
  induction b1 as [|c b1 IH]; [trivial|].
  rewrite <- !app_comm_cons, regex_exec_cons. intros H.
  destruct (match_ansi (c :: b1 ++ t)) as [[m' r']|]; [discriminate|].
  destruct (regex_exec (b1 ++ t)) as [[[b' m'] r']|]; [|discriminate].
  injection H as -> <- <-. now apply IH.
Qed.

Lemma regex_exec_head (s b m r : jsstring) :
  regex_exec s = Some (b, m, r) -> exists m', m = ESC :: m'.
Proof.
  revert b. induction s as [|c t IH]; intros b; [discriminate|].
  rewrite regex_exec_cons.
  destruct (match_ansi (c :: t)) as [[m' r']|] eqn:E.
  - intros [= <- -> ->]. eapply match_ansi_head; eassumption.
  - destruct (regex_exec t) as [[[b' m'] r']|] eqn:Et; [|discriminate].
    intros [= <- -> ->]. now apply (IH b').
Qed.

(** The leftmost match is the leftmost match whatever follows it. *)
Lemma regex_exec_replace_rest (s b m r r' : jsstring) :
  regex_exec s = Some (b, m, r) ->
  regex_exec (b ++ m ++ r') = Some (b, m, r').
Proof.
  revert b. induction s as [|c t IH]; intros b; [discriminate|].
  rewrite regex_exec_cons.
  destruct (match_ansi (c :: t)) as [[m0 r0]|] eqn:E.
  - intros [= <- -> ->]. simpl.
    destruct (match_ansi_head _ _ _ E) as [m' ->].
    pose proof (match_ansi_replace_rest _ _ _ r' E) as H.
    simpl app in *. now rewrite regex_exec_cons, H.
  - destruct (regex_exec t) as [[[b' m0] r0]|] eqn:Et; [|discriminate].
    intros [= <- -> ->].
    destruct (regex_exec_head _ _ _ _ Et) as [m' ->].
    rewrite <- app_comm_cons, regex_exec_cons, (IH b' eq_refl).
    apply regex_exec_app in Et as [-> _].
    change (c :: b' ++ (ESC :: m') ++ r)
      with ((c :: b') ++ ESC :: (m' ++ r)) in E.
    rewrite match_ansi_barrier in E by discriminate.
    change (c :: b' ++ (ESC :: m') ++ r')
      with ((c :: b') ++ ESC :: (m' ++ r')).
    rewrite match_ansi_barrier by discriminate.
    now destruct (match_ansi (c :: b')) as [[m1 r1]|].
Qed.

(** The loops on any text: what they append is a prefix of what is left,
    cut where no sequence is split, of at most twice the budget in visible
    width. *)
Lemma walk_matches_prefix (s pre : jsstring) (targetWidth vc : Z)
    (res : jsstring) :
  exists p rest,
    s = p ++ rest
    /\ finish (pre ++ s) targetWidth
         (walk_matches (pre ++ s) targetWidth (matchAll_from (len pre) s)
            vc res (len pre))
       = res ++ p
    /\ stripAnsi s = stripAnsi p ++ stripAnsi rest
    /\ (length (stripAnsi p) <= 2 * Z.to_nat (targetWidth - vc))%nat.
Proof.
  revert pre vc res. induction s as [s IH] using jsstring_length_ind.
  intros pre vc res. rewrite matchAll_from_unfold.
  pose proof (proj1 (codePoints_short_cons s)) as Hshort.
  destruct (regex_exec s) as [[[b m] r]|] eqn:E.
  - pose proof (regex_exec_shorter _ _ _ _ E) as Hr.
    pose proof (regex_exec_before_none _ _ _ _ E) as Hb.
    pose proof E as E0. apply regex_exec_app in E as [-> Hm].
    cbn [walk_matches]. rewrite slice_middle, copy_visible_chunks.
    set (k := Z.to_nat (targetWidth - vc)).
    pose proof (proj1 (codePoints_short_cons b)) as Hbs.
    pose proof (concat_firstn_short k _ Hbs) as Hlen.
    destruct (k <=? length (codePoints b))%nat eqn:Hk.
    + apply Nat.leb_le in Hk. rewrite Nat.min_l in * by assumption.
      replace (vc + Z.of_nat k >=? targetWidth)
        with true by (symmetry; apply Z.geb_le; lia).
      unfold finish.
      replace (vc + Z.of_nat k <? targetWidth)
        with false by (symmetry; apply Z.ltb_ge; lia).
      assert (concat (firstn k (codePoints b))
                ++ concat (skipn k (codePoints b)) = b) as Hcut
          by (now rewrite <- concat_app, firstn_skipn, concat_codePoints).
      remember (concat (firstn k (codePoints b))) as A eqn:HA.
      remember (concat (skipn k (codePoints b))) as B eqn:HB.
      clear HA HB IH Hk Hbs. subst b.
      exists A, (B ++ m ++ r).
      split; [now rewrite <- app_assoc|]. split; [reflexivity|].
      pose proof (regex_exec_prefix_none _ _ Hb) as HA.
      pose proof E0 as E1. rewrite <- app_assoc in E1.
      apply regex_exec_drop_before in E1.
      rewrite (stripAnsi_unfold ((A ++ B) ++ m ++ r)), E0.
      rewrite (stripAnsi_unfold A), HA.
      rewrite (stripAnsi_unfold (B ++ m ++ r)), E1.
      split; [now rewrite <- app_assoc|exact Hlen].
    + apply Nat.leb_gt in Hk. rewrite Nat.min_r in * by lia.
      replace (vc + Z.of_nat (length (codePoints b)) >=? targetWidth)
        with false
        by (symmetry; rewrite Z.geb_leb; apply Z.leb_gt; lia).
      rewrite firstn_all2, concat_codePoints by lia.
      rewrite firstn_all2, concat_codePoints in Hlen by lia.
      replace (pre ++ b ++ m ++ r) with ((pre ++ b ++ m) ++ r)
        by (now rewrite <- !app_assoc).
      replace (len pre + len b + len m) with (len (pre ++ b ++ m))
        by (unfold len; rewrite !length_app; lia).
      destruct (IH r Hr (pre ++ b ++ m)
                  (vc + Z.of_nat (length (codePoints b))) ((res ++ b) ++ m))
        as (p & rest & Hsplit & Hfin & Hstrip & Hw).
      exists (b ++ m ++ p), rest.
      split; [rewrite Hsplit; now rewrite <- !app_assoc|].
      split; [rewrite Hfin; now rewrite <- !app_assoc|].
      rewrite (stripAnsi_unfold (b ++ m ++ r)), E0.
      rewrite (stripAnsi_unfold (b ++ m ++ p)).
      rewrite (regex_exec_replace_rest _ _ _ _ p E0).
      split; [rewrite Hstrip; now rewrite app_assoc|].
      rewrite length_app. subst k. lia.
  - cbn [walk_matches finish].
    destruct (vc <? targetWidth) eqn:Hlt.
    + rewrite slice_from_app, copy_visible_chunks. cbn [snd].
      set (k := Z.to_nat (targetWidth - vc)).
      pose proof (concat_firstn_short k _ Hshort) as Hlen.
      assert (concat (firstn k (codePoints s))
                ++ concat (skipn k (codePoints s)) = s) as Hcut
          by (now rewrite <- concat_app, firstn_skipn, concat_codePoints).
      remember (concat (firstn k (codePoints s))) as A eqn:HA.
      remember (concat (skipn k (codePoints s))) as B eqn:HB.
      clear HA HB IH Hshort. subst s.
      exists A, B. split; [reflexivity|]. split; [reflexivity|].
      rewrite (stripAnsi_unfold (A ++ B)), E.
      rewrite (stripAnsi_unfold A), (regex_exec_prefix_none _ _ E).
      rewrite (stripAnsi_unfold B), (regex_exec_suffix_none _ _ E).
      split; [reflexivity|]. lia.
    + exists [], s. rewrite app_nil_r, stripAnsi_nil. simpl.
      repeat split. lia.
Qed.

(** X6: whatever the text, a truncation that keeps part of it returns a
    prefix of the text, then the style reset, then the ellipsis; the prefix
    ends where no style sequence is split (stripping the text is stripping
    the prefix and the rest), and its visible width is at most twice
    [maxWidth - ellipsis.length]. *)
Theorem truncateToWidth_prefix (text : jsstring) (maxWidth : Z)
    (ellipsis : jsstring) :
  maxWidth < visibleWidth text ->
  len ellipsis < maxWidth ->
  exists p rest,
    text = p ++ rest
    /\ truncateToWidth text maxWidth ellipsis = p ++ RESET ++ ellipsis
    /\ stripAnsi text = stripAnsi p ++ stripAnsi rest
    /\ visibleWidth p <= 2 * (maxWidth - len ellipsis).
Proof.
  intros Hw He. rewrite truncateToWidth_finish by assumption.
  destruct (walk_matches_prefix text [] (maxWidth - len ellipsis) 0 [])
    as (p & rest & Hsplit & Hfin & Hstrip & Hlen).
  exists p, rest. simpl in Hfin. unfold matchAll.
  change (len (@nil Z)) with 0 in Hfin. rewrite Hfin.
  repeat split; try assumption.
  unfold visibleWidth, len in *. lia.
Qed.

Lemma truncateToWidth_prefix_witness :
  exists p rest,
    Examples.five_astral = p ++ rest
    /\ truncateToWidth Examples.five_astral 8 ELLIPSIS = p ++ RESET ++ ELLIPSIS
    /\ stripAnsi Examples.five_astral = stripAnsi p ++ stripAnsi rest
    /\ visibleWidth p <= 2 * (8 - len ELLIPSIS).
Proof.
  apply (truncateToWidth_prefix Examples.five_astral 8 ELLIPSIS);
    reflexivity.
Defined.

(** X7: whatever the text, the visible width of what [truncateToWidth]
    returns for a width of at least 3 is at most
    [max(maxWidth, 2 * maxWidth - 3)]: surrogate pairs can make it wider
    than asked for, by less than a factor of two. *)
Theorem truncateToWidth_width_bound_any (text : jsstring) (maxWidth : Z) :
  3 <= maxWidth ->
  visibleWidth (truncateToWidth text maxWidth ELLIPSIS)
  <= Z.max maxWidth (2 * maxWidth - 3).
Proof.
  intros H3.
  destruct (Z.le_gt_cases (visibleWidth text) maxWidth) as [Hfit|Hw].
  { rewrite truncateToWidth_fits by assumption. lia. }
  destruct (Z.eq_dec maxWidth 3) as [->|Hne].
  - rewrite truncateToWidth_degenerate by (try assumption; discriminate).
    vm_compute. discriminate.
  - assert (len ELLIPSIS < maxWidth) as He by (change (len ELLIPSIS) with 3; lia).
    destruct (walk_matches_prefix text [] (maxWidth - len ELLIPSIS) 0 [])
      as (p & rest & Hsplit & Hfin & Hstrip & Hlen).
    rewrite truncateToWidth_finish by (try assumption; lia).
    simpl in Hfin. unfold matchAll. change (len (@nil Z)) with 0 in Hfin.
    rewrite Hfin. unfold visibleWidth, RESET.
    change ((ESC :: [LBRACKET; 48; LOWER_M]) ++ ELLIPSIS)
      with (ESC :: ([LBRACKET; 48; LOWER_M] ++ ELLIPSIS)).
    rewrite stripAnsi_app_esc.
    replace (stripAnsi (ESC :: [LBRACKET; 48; LOWER_M] ++ ELLIPSIS))
      with ELLIPSIS by (vm_compute; reflexivity).
    unfold len in *. rewrite length_app.
    change (length ELLIPSIS) with 3%nat in *. lia.
Qed.

Lemma truncateToWidth_width_bound_any_witness :
  visibleWidth (truncateToWidth Examples.five_astral 8 ELLIPSIS) <= 13.
Proof.
  apply (truncateToWidth_width_bound_any Examples.five_astral 8).
  discriminate.
Defined.

End AnsiTextMore.

(** * Further properties of the progress renderer *)

Module PrintModeProgressMore.

Import AnsiText AnsiTextFacts PrintModeProgress PrintModeProgressFacts.

(** ** Lines that fit *)

(** X8: a line without surrogate pairs, as [render] shows it at a terminal
    width that is not negative, is at most that wide; a line that fits is
    shown as it is. *)
Theorem display_fits (termWidth : Z) (line : jsstring) :
  0 <= termWidth ->
  no_surrogate_pair line = true ->
  visibleWidth (display termWidth line) <= termWidth
  /\ (visibleWidth line <= termWidth -> display termWidth line = line).
Proof.
  intros H0 Hs. unfold display.
  destruct (visibleWidth line >? termWidth) eqn:Hw.
  - split; [now apply truncateToWidth_width_bound|].
    intros Hfit. now apply truncateToWidth_fits.
  - rewrite Z.gtb_ltb in Hw. apply Z.ltb_ge in Hw. now split.
Qed.

Lemma display_fits_witness :
  visibleWidth (display 6 Examples.styled_text) <= 6
  /\ display 20 Examples.styled_text = Examples.styled_text.
Proof.
  split.
  - apply (display_fits 6 Examples.styled_text); [discriminate|reflexivity].
  - apply (display_fits 20 Examples.styled_text);
      [discriminate|reflexivity|discriminate].
Defined.

(** ** [normalizeText] *)

Lemma trimStart_split (s : jsstring) : exists l, s = l ++ trimStart s.
Proof.
  induction s as [|c t [l IH]]; [now exists []|].
  simpl. destruct (is_js_whitespace c); [|now exists []].
  exists (c :: l). simpl. now rewrite <- IH.
Qed.

Lemma trimStart_head (s t : jsstring) (c : Z) :
  trimStart s = c :: t -> is_js_whitespace c = false.
Proof.
  induction s as [|x s IH]; simpl; [discriminate|].
  destruct (is_js_whitespace x) eqn:Hx; [exact IH|].
  now intros [= <- <-].
Qed.

Lemma trimStart_fixed (s t : jsstring) (c : Z) :
  s = c :: t -> is_js_whitespace c = false -> trimStart s = s.
Proof. intros -> H. simpl. now rewrite H. Qed.

Lemma trimStart_idempotent (s : jsstring) :
  trimStart (trimStart s) = trimStart s.
Proof.
  destruct (trimStart s) as [|c t] eqn:E; [reflexivity|].
  eapply trimStart_fixed; [reflexivity|]. eapply trimStart_head; eassumption.
Qed.

(** What [trim] returns stands in the string, in one piece. *)
Lemma trim_infix (s : jsstring) : exists l r, s = l ++ trim s ++ r.
Proof.
  unfold trim. destruct (trimStart_split s) as [l Hl].
  destruct (trimStart_split (rev (trimStart s))) as [l' Hl'].
  exists l, (rev l'). rewrite <- rev_app_distr, <- Hl', rev_involutive.
  exact Hl.
Qed.

Lemma trim_idempotent (s : jsstring) : trim (trim s) = trim s.
Proof.
  unfold trim at 2 3.
  set (u := trimStart s). set (v := trimStart (rev u)).
  assert (trimStart (rev v) = rev v) as Hfix.
  { destruct (rev v) as [|c t] eqn:Ev; [reflexivity|].
    eapply trimStart_fixed; [reflexivity|].
    destruct (trimStart_split (rev u)) as [l Hl]. fold v in Hl.
    apply (f_equal (@rev Z)) in Hl.
    rewrite rev_involutive, rev_app_distr, Ev in Hl.
    simpl in Hl. subst u. eapply trimStart_head. exact Hl. }
  unfold trim. rewrite Hfix, rev_involutive. subst v.
  now rewrite trimStart_idempotent.
Qed.

Lemma collapse_spaces_head (c : Z) (t : jsstring) :
  exists tl, collapse_spaces (c :: t) = c :: tl.
Proof.
  revert c. induction t as [|d t IH]; intros c; [now exists []|].
  cbn [collapse_spaces].
  destruct ((c =? SPACE) && (d =? SPACE)) eqn:E; [|now eexists].
  apply andb_prop in E as [Hc Hd].
  apply Z.eqb_eq in Hc, Hd. subst. apply IH.
Qed.

Lemma collapse_spaces_no_double (s : jsstring) :
  double_space (collapse_spaces s) = false.
Proof.
  induction s as [|c t IH]; [reflexivity|].
  cbn [collapse_spaces]. destruct t as [|d t']; [reflexivity|].
  destruct ((c =? SPACE) && (d =? SPACE)) eqn:E; [exact IH|].
  destruct (collapse_spaces_head d t') as [tl Htl].
  rewrite Htl in *. cbn [double_space] in *. now rewrite E, IH.
Qed.

Lemma collapse_spaces_In (s : jsstring) (c : Z) :
  In c (collapse_spaces s) -> In c s.
Proof.
  induction s as [|x t IH]; [trivial|].
  cbn [collapse_spaces]. destruct t as [|d t']; [trivial|].
  destruct ((x =? SPACE) && (d =? SPACE)).
  - intros H. right. now apply IH.
  - intros [H|H]; [now left|right; now apply IH].
Qed.

Lemma collapse_spaces_length (s : jsstring) :
  (length (collapse_spaces s) <= length s)%nat.
Proof.
  induction s as [|x t IH]; [reflexivity|].
  cbn [collapse_spaces]. destruct t as [|d t']; [reflexivity|].
  destruct ((x =? SPACE) && (d =? SPACE)); simpl in *; lia.
Qed.

Lemma collapse_spaces_fixed (s : jsstring) :
  double_space s = false -> collapse_spaces s = s.
Proof.
  induction s as [|c t IH]; [reflexivity|].
  cbn [double_space collapse_spaces]. destruct t as [|d t']; [reflexivity|].
  intros H. apply orb_false_iff in H as [Hcd Ht].
  rewrite Hcd. f_equal. now apply IH.
Qed.

Lemma double_space_suffix (l t : jsstring) :
  double_space (l ++ t) = false -> double_space t = false.
Proof.
  induction l as [|c l IH]; [trivial|].
  simpl. intros H. apply orb_false_iff in H as [_ H]. now apply IH.
Qed.

Lemma double_space_prefix (t r : jsstring) :
  double_space (t ++ r) = false -> double_space t = false.
Proof.
  induction t as [|c t IH]; [reflexivity|].
  rewrite <- app_comm_cons. cbn [double_space].
  intros H. apply orb_false_iff in H as [Hc H].
  rewrite (IH H), orb_false_r.
  destruct t as [|d t']; [reflexivity|exact Hc].
Qed.

Lemma normalizeText_facts (s : jsstring) :
  Forall (fun c => c <> 9 /\ c <> 10 /\ c <> 13) (normalizeText s)
  /\ double_space (normalizeText s) = false
  /\ trim (normalizeText s) = normalizeText s
  /\ len (normalizeText s) <= len s.
Proof.
  unfold normalizeText.
  set (m := map (fun c => if (c =? 13) || (c =? 10) || (c =? 9)
                          then SPACE else c) s).
  destruct (trim_infix (collapse_spaces m)) as (l & r & Hin).
  repeat split.
  - apply Forall_forall. intros c Hc.
    assert (In c m) as Hm.
    { apply collapse_spaces_In. rewrite Hin.
      apply in_or_app. right. apply in_or_app. now left. }
    apply in_map_iff in Hm as (x & Hx & _).
    destruct (x =? 13) eqn:E13; [subst; repeat split; discriminate|].
    destruct (x =? 10) eqn:E10; [subst; repeat split; discriminate|].
    destruct (x =? 9) eqn:E9; [subst; repeat split; discriminate|].
    simpl in Hx. subst x.
    apply Z.eqb_neq in E13, E10, E9. repeat split; assumption.
  - pose proof (collapse_spaces_no_double m) as H. rewrite Hin in H.
    apply double_space_suffix in H. now apply double_space_prefix in H.
  - apply trim_idempotent.
  - pose proof (collapse_spaces_length m) as H.
    apply (f_equal (@length Z)) in Hin. rewrite !length_app in Hin.
    assert (length m = length s) as Hm by apply length_map.
    unfold len. lia.
Qed.

(** X9: the text [normalizeText] returns holds no tab, line feed or
    carriage return and no two spaces in a row, has no white space at
    either end, and is no longer than the text it was given. *)
Theorem normalizeText_single_line (s : jsstring) :
  Forall (fun c => c <> 9 /\ c <> 10 /\ c <> 13) (normalizeText s)
  /\ double_space (normalizeText s) = false
  /\ trim (normalizeText s) = normalizeText s
  /\ len (normalizeText s) <= len s.
Proof. apply normalizeText_facts. Qed.

(** X10: normalizing a normalized text changes nothing. *)
Theorem normalizeText_idempotent (s : jsstring) :
  normalizeText (normalizeText s) = normalizeText s.
Proof.
  destruct (normalizeText_facts s) as (Hc & Hd & Ht & _).
  unfold normalizeText at 1.
  replace (map _ (normalizeText s)) with (normalizeText s).
  - now rewrite (collapse_spaces_fixed _ Hd).
  - symmetry. rewrite <- (map_id (normalizeText s)) at 2.
    apply map_ext_in. intros c Hin.
    rewrite Forall_forall in Hc. destruct (Hc c Hin) as (H9 & H10 & H13).
    apply Z.eqb_neq in H9, H10, H13. now rewrite H9, H10, H13.
Qed.

Lemma jseq_eq (a b : jsstring) : jseq a b = true <-> a = b.
Proof.
  revert b. induction a as [|x a IH]; intros [|y b]; simpl;
    try (split; [discriminate|discriminate]); [now split|].
  rewrite andb_true_iff, Z.eqb_eq, IH. split.
  - now intros [-> ->].
  - now intros [= -> ->].
Qed.

Lemma jseq_neq (a b : jsstring) : a <> b -> jseq a b = false.
Proof.
  intros H. destruct (jseq a b) eqn:E; [|reflexivity].
  now apply jseq_eq in E.
Qed.

Lemma startsWith_app (p rest : jsstring) : startsWith (p ++ rest) p = true.
Proof.
  induction p as [|c p IH]; [now destruct rest|].
  simpl. now rewrite Z.eqb_refl, IH.
Qed.

Lemma startsWith_split (s p : jsstring) :
  startsWith s p = true -> exists rest, s = p ++ rest.
Proof.
  revert s. induction p as [|c p IH]; intros s H; [now exists s|].
  destruct s as [|x s]; [discriminate|]. simpl in H.
  apply andb_prop in H as [Hx H]. apply Z.eqb_eq in Hx as ->.
  destruct (IH s H) as [rest ->]. now exists rest.
Qed.

Section More.

Context {host : Host}.

(** ** Paths *)

(** X11: with [home] the value of [HOME], or of [USERPROFILE] when [HOME]
    is unset or empty: a path that starts with a non-empty [home] is shown
    as [~] followed by what comes after it (whether or not a separator
    comes next); any other path, and any path when [home] is empty, is
    shown as it is. *)
Theorem shortenPath_home (env : Env) :
  let home := env_or (HOME env) (env_or (USERPROFILE env) []) in
  (home <> [] ->
   forall rest, shortenPath env (home ++ rest) = js "~" ++ rest)
  /\ (forall path,
         home = [] \/ (forall rest, path <> home ++ rest) ->
         shortenPath env path = path).
Proof.
  intros home. split.
  - intros Hne rest. unfold shortenPath. fold home.
    rewrite startsWith_app.
    replace (0 <? len home) with true
      by (symmetry; apply Z.ltb_lt; destruct home; [contradiction|];
          unfold len; simpl; lia).
    simpl andb. cbv iota. now rewrite slice_from_app.
  - intros path H. unfold shortenPath. fold home.
    destruct H as [-> | H]; [reflexivity|].
    destruct (startsWith path home) eqn:E; [|now rewrite andb_false_r].
    apply startsWith_split in E as [rest ->]. now destruct (H rest).
Qed.

(** ** Tool calls *)

Lemma shortenPath_empty (env : Env) : shortenPath env [] = [].
Proof.
  unfold shortenPath.
  destruct (env_or (HOME env) (env_or (USERPROFILE env) [])) as [|c h];
    reflexivity.
Qed.

(** X12: for a tool without a case of its own, the activity text is the
    JSON of the arguments when that is at most 40 characters long, else
    its first 37 characters followed by three dots: never more than 40
    characters. *)
Theorem formatToolCall_custom (env : Env) (name : jsstring)
    (args : list (jsstring * value)) :
  ~ In name known_tools ->
  len (formatToolCall env name args) <= 40
  /\ (len (JSON_stringify args) <= 40 ->
      formatToolCall env name args = JSON_stringify args)
  /\ (40 < len (JSON_stringify args) ->
      formatToolCall env name args
      = firstn 37 (JSON_stringify args) ++ js "...").
Proof.
  intros Hname.
  assert (forall k, In k known_tools -> jseq name k = false) as Hk.
  { intros k Hin. apply jseq_neq. intros ->. contradiction. }
  unfold formatToolCall.
  rewrite !Hk by (unfold known_tools; simpl; tauto). simpl orb. cbv iota.
  destruct (len (JSON_stringify args) >? 40) eqn:E.
  - rewrite Z.gtb_ltb in E. apply Z.ltb_lt in E.
    rewrite slice_prefix by discriminate.
    change (Z.to_nat 37) with 37%nat.
    split; [|split; [lia|reflexivity]].
    unfold len in *. rewrite length_app, length_firstn.
    change (length (js "...")) with 3%nat. lia.
  - rewrite Z.gtb_ltb in E. apply Z.ltb_ge in E.
    split; [exact E|]. split; [reflexivity|lia].
Qed.

(** X13: a [read], [write] or [edit] call whose arguments have neither
    [path] nor [file_path] gives the empty text. *)
Theorem formatToolCall_no_path (env : Env) (name : jsstring)
    (args : list (jsstring * value)) :
  In name [js "read"; js "write"; js "edit"] ->
  property args K_path = None ->
  property args K_file_path = None ->
  formatToolCall env name args = [].
Proof.
  intros Hname Hp Hf. unfold formatToolCall.
  replace (jseq name (js "read") || jseq name (js "write")
           || jseq name (js "edit")) with true.
  - rewrite Hp, Hf. simpl. apply shortenPath_empty.
  - destruct Hname as [<-|[<-|[<-|[]]]]; reflexivity.
Qed.

(** ** What every sequence of calls keeps *)

Lemma updateFromAssistantMessage_spinnerFrame (env : Env) (msg : Message)
    (st : State) :
  spinnerFrame (updateFromAssistantMessage env msg st) = spinnerFrame st.
Proof.
  unfold updateFromAssistantMessage.
  repeat match goal with
         | |- context [match ?x with _ => _ end] => destruct x
         end; reflexivity.
Qed.

Lemma applyEvent_spinnerFrame (env : Env) (event : AgentSessionEvent)
    (st : State) :
  spinnerFrame (applyEvent env event st) = spinnerFrame st.
Proof.
  destruct event as [msg|msg|msg| | |]; simpl;
    try destruct (jseq (role msg) ASSISTANT); try reflexivity.
  apply updateFromAssistantMessage_spinnerFrame.
Qed.

Lemma render_fields (env : Env) (st : State) :
  spinnerFrame (fst (render env st)) = spinnerFrame st
  /\ isActive (fst (render env st)) = isActive st
  /\ spinnerInterval (fst (render env st)) = spinnerInterval st
  /\ usageTotals (fst (render env st)) = usageTotals st.
Proof.
  unfold render. destruct (isActive st) eqn:E; cbn; rewrite ?E; repeat split.
Qed.

Lemma step_steady (c : Env * Call) (st : State) :
  steady st -> steady (fst (step c st)).
Proof.
  intros [Hf Hi]. destruct c as [env c]. unfold step. cbn [fst snd].
  destruct c as [m level|event| |].
  - unfold start.
    destruct (render_fields env
                {| spinnerFrame := spinnerFrame st;
                   spinnerInterval := Some SPINNER_INTERVAL_MS;
                   startTime := now env;
                   currentActivity := js "Starting...";
                   currentActivityType := system;
                   currentToolName := currentToolName st;
                   usageTotals := usageTotals st;
                   context := {| tokens := 0;
                                 window := match m with
                                           | Some md => contextWindow md
                                           | None => 0
                                           end |};
                   hasReceivedStats := false;
                   model := m;
                   thinkingLevel := level;
                   isActive := true;
                   hasRenderedOnce := false |})
      as (Hr1 & Hr2 & Hr3 & _).
    unfold steady. rewrite Hr1, Hr2, Hr3. now split.
  - unfold handleEvent. destruct (isActive st) eqn:Ha; cbn [negb fst].
    + destruct (render_fields env (applyEvent env event st))
        as (Hr1 & Hr2 & Hr3 & _).
      destruct (applyEvent_same_session env event st) as (Ha' & _ & Hi' & _).
      unfold steady.
      rewrite Hr1, Hr2, Hr3, applyEvent_spinnerFrame, Ha', Hi', Ha.
      now split.
    + unfold steady. now rewrite Ha.
  - unfold tick.
    destruct (render_fields env
                (set_spinnerFrame
                   (Z.rem (spinnerFrame st + 1) (len SPINNER_FRAMES)) st))
      as (Hr1 & Hr2 & Hr3 & _).
    unfold steady. rewrite Hr1, Hr2, Hr3. cbn. split; [|exact Hi].
    change (len SPINNER_FRAMES) with 10 in *.
    pose proof (Z.rem_bound_pos (spinnerFrame st + 1) 10). lia.
  - unfold steady. cbn. split; [exact Hf|reflexivity].
Qed.

Lemma run_steady (calls : list (Env * Call)) (st : State) :
  steady st -> steady (fst (run calls st)).
Proof.
  revert st. induction calls as [|c calls IH]; intros st H; [exact H|].
  cbn [run]. pose proof (step_steady c st H) as H1.
  destruct (step c st) as [st1 out1]. specialize (IH st1 H1).
  destruct (run calls st1) as [st2 out2]. exact IH.
Qed.

Lemma new_steady (t : Z) : steady (new t).
Proof. split; [split; [discriminate|reflexivity]|reflexivity]. Qed.

(** X14: whatever calls an instance receives, in whatever order, its frame
    index stays within the spinner frames, so the glyph shown is always one
    of the ten. *)
Theorem spinnerFrame_in_range (t : Z) (calls : list (Env * Call)) :
  let st := fst (run calls (new t)) in
  0 <= spinnerFrame st < len SPINNER_FRAMES
  /\ In (nth (Z.to_nat (spinnerFrame st)) SPINNER_FRAMES (js "undefined"))
        SPINNER_FRAMES.
Proof.
  intros st. destruct (run_steady calls (new t) (new_steady t)) as [Hf _].
  fold st in Hf. split; [exact Hf|].
  apply nth_In. unfold len in Hf. lia.
Qed.

Lemma step_isActive (c : Env * Call) (st : State) :
  isActive (fst (step c st))
  = match snd c with
    | call_start _ _ => true
    | call_stop => false
    | call_handleEvent _ | call_tick => isActive st
    end.
Proof.
  destruct c as [env c]. unfold step. cbn [fst snd].
  destruct c as [m level|event| |].
  - destruct (start_state env m level st) as (st1 & -> & H & _). exact H.
  - unfold handleEvent. destruct (isActive st) eqn:Ha; cbn [negb fst];
      [|exact Ha].
    destruct (render_fields env (applyEvent env event st)) as (_ & -> & _).
    destruct (applyEvent_same_session env event st) as (-> & _). exact Ha.
  - unfold tick. now destruct (render_fields env
                                 (set_spinnerFrame
                                    (Z.rem (spinnerFrame st + 1)
                                       (len SPINNER_FRAMES)) st))
      as (_ & -> & _).
  - reflexivity.
Qed.

Lemma run_fst_cons (c : Env * Call) (calls : list (Env * Call)) (st : State) :
  fst (run (c :: calls) st) = fst (run calls (fst (step c st))).
Proof.
  cbn [run]. destruct (step c st) as [st1 out1]. cbn [fst].
  now destruct (run calls st1).
Qed.

Lemma registered_count (calls : list (Env * Call)) (st : State) (n : nat) :
  steady st ->
  ((if isActive st then 1 else 0) <= n)%nat ->
  (registered calls st n + (if isActive st then 1 else 0)
   = n + restarts calls st
       + (if isActive (fst (run calls st)) then 1 else 0))%nat.
Proof.
  revert st n. induction calls as [|c calls IH]; intros st n Hst Hn.
  - cbn. lia.
  - rewrite run_fst_cons. cbn [registered restarts].
    pose proof (step_steady c st Hst) as Hst1.
    pose proof (step_isActive c st) as Ha1.
    destruct Hst as [_ Hi].
    assert (Hn1 : ((if isActive (fst (step c st)) then 1 else 0)
                   <= step_registered c st n)%nat).
    { rewrite Ha1. unfold step_registered.
      destruct (snd c); [lia|exact Hn|exact Hn|lia]. }
    specialize (IH (fst (step c st)) (step_registered c st n) Hst1 Hn1).
    rewrite Ha1 in IH. unfold step_registered in *.
    destruct (snd c); rewrite ?Hi in *; destruct (isActive st); lia.
Qed.

(** X15: whatever calls an instance receives, it holds the handle of an
    interval exactly while it is active, but the intervals registered with
    the runtime can be more: besides the one of a running display, every
    [start] made while the display was running has left one behind, which
    no [stop] clears. *)
Theorem registered_intervals (t : Z) (calls : list (Env * Call)) :
  let st := fst (run calls (new t)) in
  spinnerInterval st
  = (if isActive st then Some SPINNER_INTERVAL_MS else None)
  /\ registered calls (new t) 0
     = (restarts calls (new t) + if isActive st then 1 else 0)%nat.
Proof.
  intros st. split.
  - now destruct (run_steady calls (new t) (new_steady t)).
  - pose proof (registered_count calls (new t) 0 (new_steady t)
                  ltac:(cbn; lia)) as H.
    cbn [isActive new] in H. fold st in H. lia.
Qed.

(** ** Usage never goes down *)

Lemma step_usage_le (c : Env * Call) (st : State) :
  nonneg_call c = true ->
  usage_le (usageTotals st) (usageTotals (fst (step c st))).
Proof.
  intros Hn. destruct c as [env c]. unfold step. cbn [fst snd].
  destruct c as [m level|event| |].
  - destruct (start_state env m level st) as (st1 & -> & H).
    cbn. destruct H as (_ & _ & _ & _ & _ & _ & _ & _ & ->).
    unfold usage_le. lia.
  - unfold handleEvent. destruct (isActive st) eqn:Ha; cbn [negb fst];
      [|unfold usage_le; lia].
    destruct (render_fields env (applyEvent env event st)) as (_ & _ & _ & ->).
    unfold nonneg_call in Hn.
    destruct (completed (env, call_handleEvent event)) as [u|] eqn:E.
    + unfold completed in E. cbn [snd] in E.
      destruct event as [msg|msg|msg| | |]; try discriminate.
      destruct (jseq (role msg) ASSISTANT) eqn:Hrole; [|discriminate].
      injection E as <-. cbn [applyEvent]. rewrite Hrole.
      apply andb_prop in Hn as [Hn H4]. apply andb_prop in Hn as [Hn H3].
      apply andb_prop in Hn as [H1 H2].
      apply Z.leb_le in H1, H2, H3, H4.
      unfold usage_le. cbn. lia.
    + assert (completes (env, call_handleEvent event) = false) as Hc
          by (rewrite completes_completed; now rewrite E).
      destruct (applyEvent_same_stats env event st Hc) as (-> & _).
      unfold usage_le. lia.
  - unfold tick.
    destruct (render_fields env
                (set_spinnerFrame
                   (Z.rem (spinnerFrame st + 1) (len SPINNER_FRAMES)) st))
      as (_ & _ & _ & ->).
    unfold usage_le. cbn. lia.
  - unfold usage_le. cbn. lia.
Qed.

(** X16: the token totals of an instance never go down, whatever calls it
    receives, as long as no completed message carries a negative count.
    This holds across [stop] and a second [start]: nothing sets the totals
    back. *)
Theorem usage_never_decreases (calls : list (Env * Call)) (st : State) :
  forallb nonneg_call calls = true ->
  input (usageTotals st) <= input (usageTotals (fst (run calls st)))
  /\ output (usageTotals st) <= output (usageTotals (fst (run calls st)))
  /\ cacheRead (usageTotals st) <= cacheRead (usageTotals (fst (run calls st)))
  /\ cacheWrite (usageTotals st)
     <= cacheWrite (usageTotals (fst (run calls st))).
Proof.
  revert st. induction calls as [|c calls IH]; intros st Hall.
  - simpl. lia.
  - simpl in Hall. apply andb_prop in Hall as [Hc Hall].
    pose proof (step_usage_le c st Hc) as H1.
    cbn [run]. destruct (step c st) as [st1 out1]. cbn [fst] in H1.
    specialize (IH st1 Hall).
    destruct (run calls st1) as [st2 out2]. cbn [fst] in *.
    unfold usage_le in H1. lia.
Qed.

(** ** Elapsed time *)

(** X17: when the clock is not before the start time, the elapsed time
    shown is the whole seconds since the start, rounded down: alone below
    a minute, and from 60 seconds on as at least one minute and less than
    60 seconds that add up to it. *)
Theorem formatElapsedTime_parts (env : Env) (st : State) :
  startTime st <= now env ->
  let elapsed := (now env - startTime st) / 1000 in
  1000 * elapsed <= now env - startTime st < 1000 * (elapsed + 1)
  /\ (elapsed < 60 ->
      formatElapsedTime env st
      = number_toString (number_of_Z elapsed) ++ js "s")
  /\ (60 <= elapsed ->
      exists minutes seconds,
        formatElapsedTime env st
        = number_toString (number_of_Z minutes) ++ js "m "
            ++ number_toString (number_of_Z seconds) ++ js "s"
        /\ 1 <= minutes
        /\ 0 <= seconds < 60
        /\ 60 * minutes + seconds = elapsed).
Proof.
  intros Hle elapsed. unfold formatElapsedTime. fold elapsed.
  assert (0 <= elapsed) as H0 by (apply Z.div_pos; lia).
  split; [|split].
  - pose proof (Z.mul_div_le (now env - startTime st) 1000 eq_refl).
    pose proof (Z.mul_succ_div_gt (now env - startTime st) 1000 eq_refl).
    fold elapsed in H, H1. lia.
  - intros H. now replace (elapsed <? 60) with true
        by (symmetry; apply Z.ltb_lt; exact H).
  - intros H. replace (elapsed <? 60) with false
        by (symmetry; apply Z.ltb_ge; exact H).
    exists (elapsed / 60), (Z.rem elapsed 60). split; [reflexivity|].
    rewrite Z.rem_mod_nonneg by lia.
    pose proof (Z.mod_pos_bound elapsed 60 eq_refl).
    pose proof (Z.div_mod elapsed 60).
    assert (1 <= elapsed / 60) by (apply Z.div_le_lower_bound; lia).
    lia.
Qed.

(** ** System statuses *)

(** X18: on an active display, the activity line after a retry event is
    the spinner glyph and the text [Retrying (attempt/maxAttempts)...],
    both in the warning colour; after a compaction event or the start of an
    assistant message it is the glyph in the accent colour and the plain
    status text. *)
Theorem system_status_lines (env : Env) (st : State) :
  isActive st = true ->
  let glyph :=
    nth (Z.to_nat (spinnerFrame st)) SPINNER_FRAMES (js "undefined") in
  (forall attempt maxAttempts,
      buildActivityLine
        (fst (handleEvent env (auto_retry_start attempt maxAttempts) st))
      = theme_fg warning glyph ++ js " "
          ++ theme_fg warning
               (js "Retrying (" ++ number_toString (number_of_Z attempt)
                  ++ js "/" ++ number_toString (number_of_Z maxAttempts)
                  ++ js ")..."))
  /\ buildActivityLine (fst (handleEvent env auto_compaction_start st))
     = theme_fg accent glyph ++ js " " ++ js "Compacting context..."
  /\ (forall msg,
         role msg = ASSISTANT ->
         buildActivityLine (fst (handleEvent env (message_start msg) st))
         = theme_fg accent glyph ++ js " " ++ js "Working...").
Proof.
  intros Hact glyph. unfold handleEvent. rewrite Hact. cbn [negb].
  split; [|split].
  - intros attempt maxAttempts. cbn [applyEvent].
    rewrite render_active by exact Hact. reflexivity.
  - cbn [applyEvent]. rewrite render_active by exact Hact. reflexivity.
  - intros msg Hrole. cbn [applyEvent]. rewrite Hrole, jseq_refl.
    rewrite render_active by exact Hact. reflexivity.
Qed.

(** ** A whole run *)

Lemma run_app (a b : list (Env * Call)) (st : State) :
  run (a ++ b) st
  = (fst (run b (fst (run a st))),
     snd (run a st) ++ snd (run b (fst (run a st)))).
Proof.
  revert st. induction a as [|c a IH]; intros st.
  - simpl. now destruct (run b st).
  - cbn [app run]. destruct (step c st) as [st1 out1].
    rewrite IH. destruct (run a st1) as [st2 out2]. cbn [fst snd].
    now rewrite app_assoc.
Qed.

(** X19: what the progress display of a print-mode run writes.  Nothing
    at all unless the mode is [text], stderr is a terminal and [quiet] is
    not set.  Otherwise: the first frame, one repainted frame for each
    event and tick that arrives while the prompts run, and last the clear
    sequence of [stop]. *)
Theorem progressOutput_shape (mode : jsstring) (isTTY : bool)
    (quiet : option bool) (t : Z) (env : Env) (m : option Model)
    (level : jsstring) (deliveries : list (Env * Call)) (env' : Env) :
  forallb is_update deliveries = true ->
  (mode <> js "text" \/ isTTY = false \/ quiet = Some true ->
   PrintMode.progressOutput mode isTTY quiet t env m level deliveries env'
   = [])
  /\ (mode = js "text" -> isTTY = true -> quiet <> Some true ->
      exists a0 s0 later,
        PrintMode.progressOutput mode isTTY quiet t env m level deliveries env'
        = frame a0 s0 :: later ++ clearLines
        /\ length later = length deliveries
        /\ Forall (fun w => exists a s, w = MOVE_UP ++ frame a s) later).
Proof.
  intros Hall. unfold PrintMode.progressOutput, PrintMode.shouldShowProgress.
  split.
  - intros [Hm|[Ht|Hq]].
    + now rewrite (jseq_neq _ _ Hm).
    + rewrite Ht. now rewrite andb_false_r.
    + rewrite Hq. now rewrite andb_false_r.
  - intros -> -> Hq.
    replace (negb match quiet with Some q => q | None => false end)
      with true by (destruct quiet as [[|]|]; [contradiction| |]; reflexivity).
    rewrite jseq_refl. cbn [andb].
    destruct (start_state env m level (new t)) as (st1 & Hstart & Ha & _).
    cbn [run step fst snd]. rewrite Hstart, run_app.
    destruct (run_updates_active deliveries (set_hasRenderedOnce true st1)
                Hall Ha eq_refl) as (Hlen & Hframes & _).
    cbn [fst snd run step stop]. rewrite app_nil_r.
    do 3 eexists. split; [reflexivity|]. split; assumption.
Qed.

End More.

(** ** These properties at work, on the decimal host *)

Import Examples.

#[local] Existing Instance DecimalHost.host.

(** A display started twice and stopped once is inactive and holds no
    handle, yet one interval is still registered. *)
Example double_start_leaks :
  registered double_start (new 0) 0 = 1%nat
  /\ restarts double_start (new 0) = 1%nat
  /\ isActive (fst (run double_start (new 0))) = false
  /\ spinnerInterval (fst (run double_start (new 0))) = None.
Proof. vm_compute. repeat split; reflexivity. Qed.

Lemma shortenPath_home_witness :
  shortenPath env0 (js "/home/u/src") = js "~/src"
  /\ shortenPath env0 (js "/home/user2") = js "~ser2"
  /\ shortenPath env0 (js "/tmp/x") = js "/tmp/x"
  /\ shortenPath env1 (js "/home/u/src") = js "/home/u/src".
Proof.
  destruct (shortenPath_home env0) as [H1 H2].
  destruct (shortenPath_home env1) as [_ H3].
  split; [apply (H1 ltac:(discriminate) (js "/src"))|].
  split; [apply (H1 ltac:(discriminate) (js "ser2"))|].
  split.
  - apply H2. right. intros rest. discriminate.
  - apply H3. now left.
Defined.

Lemma formatToolCall_custom_witness :
  ~ In (js "web_search") known_tools
  /\ len (formatToolCall env0 (js "web_search")
            [(js "query", js "rocq equations well-founded recursion")])
     <= 40.
Proof.
  assert (~ In (js "web_search") known_tools) as H.
  { intros H. repeat (destruct H as [H|H]; [discriminate|]). exact H. }
  split; [exact H|].
  apply (formatToolCall_custom (host := DecimalHost.host) env0 _ _ H).
Defined.

Lemma formatToolCall_no_path_witness :
  formatToolCall env0 (js "read") [(js "command", js "ls")] = [].
Proof.
  apply (formatToolCall_no_path (host := DecimalHost.host));
    [now left | reflexivity | reflexivity].
Defined.

Lemma usage_never_decreases_witness :
  forallb nonneg_call two_sessions = true
  /\ 0 <= input (usageTotals (fst (run two_sessions (new 0)))).
Proof.
  split; [reflexivity|].
  apply (usage_never_decreases (host := DecimalHost.host) two_sessions
           (new 0) eq_refl).
Defined.

Lemma formatElapsedTime_parts_witness :
  let st := fst (start env0 (Some test_model) OFF (new 0)) in
  startTime st <= now env2
  /\ exists minutes seconds,
       formatElapsedTime env2 st
       = DecimalHost.toString (inject_Z minutes) ++ js "m "
           ++ DecimalHost.toString (inject_Z seconds) ++ js "s"
       /\ 1 <= minutes
       /\ 0 <= seconds < 60
       /\ 60 * minutes + seconds = 125.
Proof.
  split; [discriminate|].
  destruct (formatElapsedTime_parts (host := DecimalHost.host) env2
              (fst (start env0 (Some test_model) OFF (new 0)))
              ltac:(discriminate)) as (_ & _ & H).
  apply H. discriminate.
Defined.

Lemma system_status_lines_witness :
  let st := fst (start env0 (Some test_model) OFF (new 0)) in
  isActive st = true
  /\ buildActivityLine (fst (handleEvent env1 (auto_retry_start 2 3) st))
     = DecimalHost.fg warning [10251] ++ js " "
         ++ DecimalHost.fg warning (js "Retrying (2/3)...").
Proof.
  split; [reflexivity|].
  destruct (system_status_lines (host := DecimalHost.host) env1
              (fst (start env0 (Some test_model) OFF (new 0))) eq_refl)
    as (H & _).
  rewrite H. reflexivity.
Defined.

Lemma progressOutput_shape_witness :
  forallb is_update session_updates = true
  /\ PrintMode.progressOutput (js "json") true None 0 env0 (Some test_model)
       OFF session_updates env2 = []
  /\ exists a0 s0 later,
       PrintMode.progressOutput (js "text") true None 0 env0
         (Some test_model) OFF session_updates env2
       = frame a0 s0 :: later ++ clearLines
       /\ length later = length session_updates
       /\ Forall (fun w => exists a s, w = MOVE_UP ++ frame a s) later.
Proof.
  split; [reflexivity|]. split.
  - apply (progressOutput_shape (host := DecimalHost.host) (js "json") true
             None 0 env0 (Some test_model) OFF session_updates env2 eq_refl).
    left. discriminate.
  - apply (progressOutput_shape (host := DecimalHost.host) (js "text") true
             None 0 env0 (Some test_model) OFF session_updates env2 eq_refl);
      [reflexivity | reflexivity | discriminate].
Defined.

End PrintModeProgressMore.
